(** * eo-basic-example: configuration model, reconciliation and paginated retrieval

    A shallow embedding of the download core of the repository
    ([download/configure], [download/process], [download/downloader.py])
    together with the properties its specification states about it.

    Conventions.
    - Python [str] values are [string]s (one [ascii] per code point below 256).
    - Python [int] values are [Z].
    - A call that may raise returns a [result]; the exception classes that the
      modelled code can raise are the constructors of [exn].
    - The network and the file store are explicit state, threaded through every
      function that touches them. *)

From Stdlib Require Import List String Ascii ZArith Bool Lia Arith.
From Stdlib Require Import Permutation Sorted OrderedTypeEx DecimalString.
Import ListNotations.

Local Open Scope string_scope.
Local Open Scope list_scope.
Local Open Scope nat_scope.

(* ================================================================= *)
(** ** Exceptions and results *)

(** The exception classes of [download/configure/validate/exceptions.py] that
    the modelled code raises, followed by the builtin ones. *)
Inductive exn : Type :=
| EmptyValError
| InvalidSpaceError
| InvalidNumberOfSymbolsError
| InvalidYearError
| InvalidValueFormatOrContentError
| InvalidGeomServerError
| IndexError
| KeyError
| ValueError
| UnboundLocalError
| JSONDecodeError
| AttributeError.

(** The outcome of a call: it returns, it raises, or the unbounded loop it
    runs was cut off ([Diverge], which [iterative_geo_api_retrieve_total]
    shows never to be the outcome of the one function that loops). *)
Inductive result (A : Type) : Type :=
| Ok (a : A)
| Raise (e : exn)
| Diverge.

Arguments Ok {A} a.
Arguments Raise {A} e.
Arguments Diverge {A}.

Definition bind {A B : Type} (r : result A) (k : A -> result B) : result B :=
  match r with
  | Ok a => k a
  | Raise e => Raise e
  | Diverge => Diverge
  end.

Notation "x <- r ;; k" := (bind r (fun x => k))
  (at level 61, r at next level, right associativity).

(* ================================================================= *)
(** ** Python string primitives *)

(** [str.isspace] on one character: the code points below 256 that Python
    classifies as whitespace. *)
Definition py_space_char (c : ascii) : bool :=
  let n := nat_of_ascii c in
  ((9 <=? n) && (n <=? 13)) || ((28 <=? n) && (n <=? 32))
  || (n =? 133) || (n =? 160).

Fixpoint forallb_string (p : ascii -> bool) (s : string) : bool :=
  match s with
  | EmptyString => true
  | String c r => p c && forallb_string p r
  end.

(** [s.isspace()]: at least one character and all of them whitespace. *)
Definition isspace (s : string) : bool :=
  match s with
  | EmptyString => false
  | _ => forallb_string py_space_char s
  end.

(** [s.split(sep)] for a one-character separator: never the empty list. *)
Fixpoint split (sep : ascii) (s : string) : list string :=
  match s with
  | EmptyString => [EmptyString]
  | String c r =>
      if Ascii.eqb c sep then EmptyString :: split sep r
      else match split sep r with
           | [] => [String c EmptyString]
           | h :: t => String c h :: t
           end
  end.

(** [s.replace(old, "")] for a one-character [old]. *)
Fixpoint remove_char (old : ascii) (s : string) : string :=
  match s with
  | EmptyString => EmptyString
  | String c r =>
      if Ascii.eqb c old then remove_char old r else String c (remove_char old r)
  end.

(** [sub in s] for strings. *)
Fixpoint contains (sub s : string) : bool :=
  String.prefix sub s
  || match s with
     | EmptyString => false
     | String _ r => contains sub r
     end.

(** *** [int(s)] on a string

    Surrounding whitespace is stripped, one sign is allowed, and the digits
    may be grouped by single underscores. Anything else raises, which the
    only caller turns into [False]; hence [option]. *)

Fixpoint lstrip (s : string) : string :=
  match s with
  | String c r => if py_space_char c then lstrip r else s
  | EmptyString => EmptyString
  end.

Fixpoint rstrip (s : string) : string :=
  match s with
  | EmptyString => EmptyString
  | String c r =>
      match rstrip r with
      | EmptyString => if py_space_char c then EmptyString else String c EmptyString
      | r' => String c r'
      end
  end.

Definition strip (s : string) : string := rstrip (lstrip s).

Definition digit_of (c : ascii) : option Z :=
  let n := nat_of_ascii c in
  if (48 <=? n) && (n <=? 57) then Some (Z.of_nat (n - 48)) else None.

(** [digits acc after_digit s]: the value read so far is [acc]; [after_digit]
    tells whether the previous character was a digit (an underscore is only
    allowed there, and the literal must not end on one). *)
Fixpoint digits (acc : Z) (after_digit : bool) (s : string) : option Z :=
  match s with
  | EmptyString => if after_digit then Some acc else None
  | String c r =>
      match digit_of c with
      | Some d => digits (10 * acc + d) true r
      | None =>
          if Ascii.eqb c "_"%char && after_digit then digits acc false r
          else None
      end
  end.

Definition py_int (s : string) : option Z :=
  match strip s with
  | String "-" r => option_map Z.opp (digits 0 false r)
  | String "+" r => digits 0 false r
  | r => digits 0 false r
  end.

(* ================================================================= *)
(** ** [download/configure/validate/utils.py] *)

(** [empty_value] at a string argument. *)
Definition empty_value (val : string) : bool :=
  isspace val || (String.length val =? 0).

Section Clock.

(** [datetime.date.today().year]. *)
Variable curr_year : Z.

Definition validate_year (year : string) : bool :=
  match py_int year with
  | None => false
  | Some int_year => (1990 <=? int_year)%Z && (int_year <=? curr_year)%Z
  end.

(** [string.split("_")[1]] raises [IndexError] when there is no underscore. *)
Definition string_contains_year (s : string) : result bool :=
  match nth_error (split "_" s) 1 with
  | None => Raise IndexError
  | Some year_values => Ok (forallb validate_year (split "-" year_values))
  end.

End Clock.

Definition string_contains_space (s : string) : bool :=
  String.length (remove_char " " s) <? String.length s.

Definition invalid_symbol_count (s : string) (symbol : ascii) (occurences : nat)
  : bool :=
  negb (List.length (split symbol s) =? occurences + 1).

(* ================================================================= *)
(** ** [download/setup/constants.py] *)

Definition GEOMETRY_SERVERS : list (string * string) :=
  [("ons", "/FeatureServer/0/query?"); ("scot", "/query?")].

Fixpoint dict_get {V : Type} (k : string) (d : list (string * V)) : option V :=
  match d with
  | [] => None
  | (k', v) :: d' => if String.eqb k' k then Some v else dict_get k d'
  end.

Definition dict_mem {V : Type} (k : string) (d : list (string * V)) : bool :=
  match dict_get k d with Some _ => true | None => false end.

(* ================================================================= *)
(** ** [download/configure/validate/validators.py] *)

Definition validate_folder (folder : string) : result string :=
  if empty_value folder then Raise EmptyValError
  else if string_contains_space folder then Raise InvalidSpaceError
  else Ok folder.

Definition validate_server (server : string) : result string :=
  if negb (dict_mem server GEOMETRY_SERVERS) then Raise InvalidGeomServerError
  else Ok server.

Definition validate_output_filename (curr_year : Z) (filename : string)
  : result string :=
  if empty_value filename then Raise EmptyValError
  else if string_contains_space filename then Raise InvalidSpaceError
  else if invalid_symbol_count filename "_" 1 then Raise InvalidNumberOfSymbolsError
  else
    has_year <- string_contains_year curr_year filename ;;
    if negb has_year then Raise InvalidYearError else Ok filename.

Definition validate_file_ext (ext : string) : result string :=
  if empty_value ext then Raise EmptyValError else Ok ext.

Definition validate_filename (filename : string) : result string :=
  if empty_value filename then Raise EmptyValError else Ok filename.

Definition validate_offset (offset maximum : Z) : result Z :=
  if (offset <? 0)%Z then Raise InvalidValueFormatOrContentError
  else if (offset >? maximum)%Z then Raise InvalidValueFormatOrContentError
  else Ok offset.

(** [validate_url] defers to the third-party [validators.url]; its verdict is
    taken as a parameter. *)
Definition validate_url (url_ok : string -> bool) (url : string) : result string :=
  if negb (url_ok url) then Raise InvalidValueFormatOrContentError else Ok url.

(* ================================================================= *)
(** ** The upstream API

    [download/process/util.py] talks to the network through
    [get_response_from_url]. The network is modelled as a script of replies,
    served one per request; once the script is used up every further request
    fails at transport level. Each request that is sent is recorded. *)

(** One feature of a geometry collection (its serialised form). *)
Definition feature : Type := string.

(** The decoded body of a reply: a JSON object, of which the code only reads
    the ["features"] member ([None] when the key is absent). *)
Record ret_json : Type := { features : option (list feature) }.

(** A [requests.Response]; [json] is what [resp.json()] returns, [None] when
    the body does not decode. *)
Record Response : Type := { json : option ret_json }.

(** Values of the parameter dictionary: [Union[str, int, None]]. *)
Inductive pvalue : Type :=
| PStr (s : string)
| PInt (z : Z)
| PNone.

Definition is_PNone (v : pvalue) : bool :=
  match v with PNone => true | _ => false end.

(** [d[k] = v] on an insertion-ordered dictionary. *)
Fixpoint dict_set {V : Type} (k : string) (v : V) (d : list (string * V))
  : list (string * V) :=
  match d with
  | [] => [(k, v)]
  | (k', v') :: d' =>
      if String.eqb k' k then (k', v) :: d' else (k', v') :: dict_set k v d'
  end.

(** A request: the endpoint and the query that [urlencode] renders after it. *)
Record request : Type := { req_url : string; req_query : list (string * pvalue) }.

Record network : Type := { script : list (option Response); sent : list request }.

(** [get_response_from_url]: the pair [(resp, True)] is [Some resp] and
    [(None, False)] is [None]. *)
Definition get_response_from_url (url_params : request) (net : network)
  : option Response * network :=
  match script net with
  | [] => (None, {| script := []; sent := sent net ++ [url_params] |})
  | r :: s => (r, {| script := s; sent := sent net ++ [url_params] |})
  end.

(** [encode_params]: drops the unset parameters; the rendering itself is
    left to [urlencode]. *)
Definition encode_params (api_params : list (string * pvalue))
  : list (string * pvalue) :=
  filter (fun kv => negb (is_PNone (snd kv))) api_params.

(** A [GeoDataFrame]: one row per feature. *)
Definition GeoDataFrame : Type := list feature.

(** [range(1, n + 1)]. *)
Definition range1 (n : Z) : list Z := map Z.of_nat (seq 1 (Z.to_nat n)).

(** How the [for retry in range(...)] loop is left. *)
Inductive for_exit : Type :=
| ForReturn (r : option GeoDataFrame * bool)
| ForRaise (e : exn)
| ForExit (ret_json : option ret_json).
    (** by [break] or by exhausting the range; the local [ret_json] is as the
        loop left it, [None] while it is unbound *)

Section Retrieve.

Variables (offset : Z) (url : string) (max_retries : Z).

Fixpoint retry_loop (params : list (string * pvalue)) (retries : list Z)
    (ret_json : option ret_json) (net : network) : for_exit * network :=
  match retries with
  | [] => (ForExit ret_json, net)
  | retry :: retries' =>
      let url_params := {| req_url := url; req_query := encode_params params |} in
      let '(resp, net) := get_response_from_url url_params net in
      match resp with
      | None => (ForReturn (None, false), net)
      | Some resp =>
          match json resp with
          | None => (ForRaise JSONDecodeError, net)
          | Some rj =>
              match features rj with
              | Some _ => (ForExit (Some rj), net)
              | None =>
                  if (retry =? max_retries)%Z then (ForReturn (None, false), net)
                  else retry_loop params retries' (Some rj) net
              end
          end
      end
  end.

(** The final loop over [raw_data]: every page's features, in order. *)
Fixpoint combine_pages (raw_data : list ret_json) (gdf : GeoDataFrame)
  : result GeoDataFrame :=
  match raw_data with
  | [] => Ok gdf
  | ret :: rest =>
      match features ret with
      | None => Raise KeyError
      | Some tmp_gdf => combine_pages rest (gdf ++ tmp_gdf)
      end
  end.

Definition finish (raw_data : list ret_json)
  : result (option GeoDataFrame * bool) :=
  gdf <- combine_pages raw_data [] ;; Ok (Some gdf, true).

(** The [while True] loop, cut off after [fuel] iterations. *)
Fixpoint while_loop (fuel : nat) (params : list (string * pvalue))
    (iteration : Z) (raw_data : list ret_json) (ret_json : option ret_json)
    (net : network)
  : result (option GeoDataFrame * bool) * network :=
  match fuel with
  | O => (Diverge, net)
  | S fuel' =>
      let params := dict_set "resultOffset" (PInt (offset * (iteration - 1))) params in
      match retry_loop params (range1 max_retries) ret_json net with
      | (ForReturn r, net) => (Ok r, net)
      | (ForRaise e, net) => (Raise e, net)
      | (ForExit None, net) => (Raise UnboundLocalError, net)
      | (ForExit (Some rj), net) =>
          match features rj with
          | None => (Raise KeyError, net)
          | Some [] => (finish raw_data, net)
          | Some (_ :: _) =>
              let raw_data := raw_data ++ [rj] in
              if (offset =? 0)%Z then (finish raw_data, net)
              else while_loop fuel' params (iteration + 1) raw_data (Some rj) net
          end
      end
  end.

End Retrieve.

(** [iterative_geo_api_retrieve]. Every iteration that goes on to another
    one has consumed a reply, and an exhausted script fails the next fetch,
    so one more iteration than there are replies is always enough. *)
Definition iterative_geo_api_retrieve (params : list (string * pvalue))
    (offset : Z) (url : string) (max_retries : Z) (net : network)
  : result (option GeoDataFrame * bool) * network :=
  while_loop offset url max_retries (S (List.length (script net)))
    params 1 [] None net.

(** The reply carrying the feature list [fs], and a reply without the key. *)
Definition page (fs : list feature) : option Response :=
  Some {| json := Some {| features := Some fs |} |}.

Definition featureless : option Response :=
  Some {| json := Some {| features := None |} |}.

(** The request one attempt sends for the parameters [params]. *)
Definition attempt (url : string) (params : list (string * pvalue)) : request :=
  {| req_url := url; req_query := encode_params params |}.

(** The request of iteration [i]. *)
Definition page_request (params : list (string * pvalue)) (offset : Z)
    (url : string) (i : Z) : request :=
  {| req_url := url;
     req_query :=
       encode_params (dict_set "resultOffset" (PInt (offset * (i - 1))) params) |}.

(* ================================================================= *)
(** ** Paths and the file store

    A path is kept as its string form, components joined by ["/"]. The file
    store is the list of the regular files it holds. *)

(** [s.rfind(c)] for a character: the index of its last occurrence. *)
Fixpoint rfind (c : ascii) (s : string) : option nat :=
  match s with
  | EmptyString => None
  | String a r =>
      match rfind c r with
      | Some i => Some (S i)
      | None => if Ascii.eqb a c then Some 0 else None
      end
  end.

(** [Path.name]: the last component. *)
Definition path_name (p : string) : string := last (split "/" p) EmptyString.

(** [Path.stem]: the name without its last suffix. *)
Definition path_stem (p : string) : string :=
  let name := path_name p in
  match rfind "." name with
  | Some i =>
      if (0 <? i) && (i <? String.length name - 1) then String.substring 0 i name
      else name
  | None => name
  end.

(** [path / child]. *)
Definition joinpath (path child : string) : string :=
  (path ++ "/" ++ child)%string.

(** The paths [directory.glob("**/*.*")] yields, in the store's order: the
    files below [directory] whose name has a dot. *)
Definition glob_all (directory : string) (disk : list string) : list string :=
  filter
    (fun p => String.prefix (directory ++ "/") p && contains "." (path_name p))
    disk.

(** [re.sub(" +", " ", name)]; [prev] tells whether a space was just kept. *)
Fixpoint squeeze_spaces (prev : bool) (name : string) : string :=
  match name with
  | EmptyString => EmptyString
  | String c r =>
      if Ascii.eqb c " " then
        if prev then squeeze_spaces true r else String c (squeeze_spaces true r)
      else String c (squeeze_spaces false r)
  end.

Definition lower_char (c : ascii) : ascii :=
  let n := nat_of_ascii c in
  if ((65 <=? n) && (n <=? 90))
     || ((192 <=? n) && (n <=? 222) && negb (n =? 215))
  then ascii_of_nat (n + 32) else c.

Fixpoint lower (s : string) : string :=
  match s with
  | EmptyString => EmptyString
  | String c r => String (lower_char c) (lower r)
  end.

Fixpoint replace_char (old : ascii) (new : string) (s : string) : string :=
  match s with
  | EmptyString => EmptyString
  | String c r =>
      if Ascii.eqb c old then (new ++ replace_char old new r)%string
      else String c (replace_char old new r)
  end.

Definition generate_slug (name delimiter : string) : string :=
  replace_char " " delimiter (lower (squeeze_spaces false name)).

(** [generate_data_path]; the parent directory it creates holds no file and
    so leaves the store as it is. *)
Definition generate_data_path (path folder title ext : string) : string :=
  joinpath (joinpath path (generate_slug folder "-")) (title ++ "." ++ ext).

(** [Paths.ARCHIVE_DATA_DIR] for the default data directory. *)
Definition ARCHIVE_DATA_DIR : string := "data/archive".

(** What a run can observe and change: the network, the file store, the log
    lines written through [download_logger], and the time stamp
    [archive_data] reads from the clock. *)
Record world : Type := {
  net : network;
  disk : list string;
  log : list string;
  clock : string
}.

Definition set_net (w : world) (n : network) : world :=
  {| net := n; disk := disk w; log := log w; clock := clock w |}.

Definition set_disk (w : world) (d : list string) : world :=
  {| net := net w; disk := d; log := log w; clock := clock w |}.

Definition logger_info (msg : string) (w : world) : world :=
  {| net := net w; disk := disk w; log := log w ++ [msg]; clock := clock w |}.

(** [x in l]. *)
Definition mem (x : string) (l : list string) : bool := existsb (String.eqb x) l.

(** [file.unlink()]; the paths handed to it come from a listing of the
    store, so the file is there. *)
Definition unlink (file : string) (w : world) : world :=
  set_disk w (filter (fun p => negb (String.eqb p file)) (disk w)).

(** Writing a file creates it or replaces its content. *)
Definition write_file (file : string) (w : world) : world :=
  set_disk w (if mem file (disk w) then disk w else disk w ++ [file]).

(** [file.rename(target)]. *)
Definition rename (file target : string) (w : world) : world :=
  write_file target (unlink file w).

Fixpoint delete_data (to_delete : list string) (w : world) : world :=
  match to_delete with
  | [] => w
  | file :: rest =>
      delete_data rest (unlink file (logger_info ("Deleting file: " ++ file) w))
  end.

Fixpoint archive_loop (time archive_path : string) (to_archive : list string)
    (w : world) : world :=
  match to_archive with
  | [] => w
  | file :: rest =>
      archive_loop time archive_path rest
        (rename file (joinpath archive_path (path_name file))
           (logger_info ("Archiving file in folder: " ++ time) w))
  end.

(** [archive_data]: every file moves into the directory named after the
    time stamp; creating that directory holds no file and is left out. *)
Definition archive_data (to_archive : list string) (w : world) : world :=
  let time := clock w in
  archive_loop time (joinpath ARCHIVE_DATA_DIR time) to_archive w.

(* ================================================================= *)
(** ** [download/configure/file.py] *)

Record File : Type := {
  folder : string;
  url : string;
  file_ext : string;
  write_to_disk : bool
}.

(** Construction runs the field validators in the order of the fields; the
    first exception leaves the constructor. *)
Definition File_init (url_ok : string -> bool)
    (folder url file_ext : string) (write_to_disk : option bool) : result File :=
  folder <- validate_folder folder ;;
  url <- validate_url url_ok url ;;
  file_ext <- validate_file_ext file_ext ;;
  Ok {| folder := folder; url := url; file_ext := file_ext;
        write_to_disk := match write_to_disk with Some b => b | None => false end |}.

(* ================================================================= *)
(** ** [download/process/handlers.py] *)

(** What a handler hands back per file: [bytes | pd.DataFrame]. *)
Inductive payload : Type :=
| Bytes (b : string)
| Frame (gdf : GeoDataFrame).

Definition outputs : Type := list (string * option payload).

(** The capability set of [DownloadHandler]: what [Config] and [Downloader]
    use of an entry, whatever its class. *)
Record DownloadHandler : Type := {
  class_name : string;
  file : File;
  filenames : list string;
  execute : string -> world -> result (bool * outputs) * world
}.

Module ArcgisGeomHandler.

Record t : Type := {
  file : File;
  filename : string;
  server : string;
  outfields : option string;
  format : string;
  offset : Z;
  output_filename : string
}.

Definition params (self : t) : list (string * pvalue) :=
  [ ("where", PStr "1=1");
    ("timeRelation", PStr "esriTimeRelationOverlaps");
    ("geometryType", PStr "esriGeometryEnvelope");
    ("spatialRel", PStr "esriSpatialRelIntersects");
    ("resultType", PStr "none");
    ("distance", PStr "0.0");
    ("units", PStr "esriSRUnit_Meter");
    ("outFields", match outfields self with Some s => PStr s | None => PNone end);
    ("featureEncoding", PStr "esriCompressedShapeBuffer");
    ("outputSpatialReference", PInt 4326);
    ("returnTrueCurves", PStr "false");
    ("multipatchOption", PStr "xyFootprint");
    ("sqlFormat", PStr "none");
    ("f", PStr (format self));
    ("resultRecordCount",
      if (offset self =? 0)%Z then PStr "" else PInt (offset self)) ].

Definition execute (self : t) (path : string) (w : world)
  : result (bool * outputs) * world :=
  match dict_get (server self) GEOMETRY_SERVERS with
  | None => (Raise KeyError, w)
  | Some suffix =>
      let url := (url (file self) ++ filename self ++ suffix)%string in
      match iterative_geo_api_retrieve (params self) (offset self) url 3 (net w) with
      | (Ok (gdf, status), n) =>
          let w := set_net w n in
          if negb status then (Ok (false, [(output_filename self, None)]), w)
          else
            match gdf with
            | None => (Raise AttributeError, w)
            | Some gdf =>
                let w :=
                  if write_to_disk (file self) then
                    write_file
                      (generate_data_path path (folder (file self))
                         (output_filename self) (file_ext (file self))) w
                  else w in
                (Ok (true, [(output_filename self, Some (Frame gdf))]), w)
            end
      | (Raise e, n) => (Raise e, set_net w n)
      | (Diverge, n) => (Diverge, set_net w n)
      end
  end.

(** The field validators, in the order of the fields. *)
Definition init (curr_year : Z) (file : File) (filename server : string)
    (outfields : option string) (format : string) (offset : option Z)
    (output_filename : string) : result t :=
  filename <- validate_filename filename ;;
  server <- validate_server server ;;
  offset <- validate_offset (match offset with Some o => o | None => 0%Z end) 2000 ;;
  output_filename <- validate_output_filename curr_year output_filename ;;
  Ok {| file := file; filename := filename; server := server;
        outfields := outfields; format := format; offset := offset;
        output_filename := output_filename |}.

End ArcgisGeomHandler.

(** An [ArcgisGeomHandler] seen through the base class: [filenames] is the
    one-element list of its [output_filename]. *)
Definition arcgis (h : ArcgisGeomHandler.t) : DownloadHandler :=
  {| class_name := "ArcgisGeomHandler";
     file := ArcgisGeomHandler.file h;
     filenames := [ArcgisGeomHandler.output_filename h];
     execute := ArcgisGeomHandler.execute h |}.

(* ================================================================= *)
(** ** [download/configure/config.py] *)

(** The configuration document: folders, each with its dataset entries. *)
Module Document.

Record file_config : Type := {
  url : string;
  file_ext : string;
  write_to_disk : option bool
}.

Record handler_config : Type := {
  filename : string;
  server : string;
  outfields : option string;
  format : string;
  offset : option Z;
  output_filename : string
}.

Record dataset : Type := {
  download_method : string;
  file_cfg : file_config;
  handler_cfg : handler_config
}.

Record folder_config : Type := {
  folder : string;
  datasets : list dataset
}.

End Document.

(** A handler class as the dispatch table holds it: called with the [File]
    and the handler fields of the entry. *)
Definition handler_class : Type :=
  File -> Document.handler_config -> result DownloadHandler.

Definition ArcgisGeomHandler_class (curr_year : Z) : handler_class :=
  fun file hc =>
    h <- ArcgisGeomHandler.init curr_year file
           (Document.filename hc) (Document.server hc) (Document.outfields hc)
           (Document.format hc) (Document.offset hc) (Document.output_filename hc) ;;
    Ok (arcgis h).

Definition DOWNLOAD_HANDLERS (curr_year : Z) : list (string * handler_class) :=
  [("arcgis_geom_api", ArcgisGeomHandler_class curr_year)].

(** The messages passed to [warnings.warn], by kind. *)
Inductive warning : Type :=
| ZipUrlTwice (url : string)
| UrlTwice (url : string)
| FilenameTwice (filename : string).

Definition is_url_warning (wn : warning) : bool :=
  match wn with
  | ZipUrlTwice _ | UrlTwice _ => true
  | FilenameTwice _ => false
  end.

Module Config.

Record t : Type := {
  config_file : list Document.folder_config;
  entries : list DownloadHandler
}.

Section Build.

(** The dispatch table in force and the verdict of the URL checker. *)
Variable handlers : list (string * handler_class).
Variable url_ok : string -> bool.

Fixpoint build_datasets (folder : string) (datasets : list Document.dataset)
    (entries : list DownloadHandler) : result (list DownloadHandler) :=
  match datasets with
  | [] => Ok entries
  | dataset :: rest =>
      let fc := Document.file_cfg dataset in
      file <- File_init url_ok folder (Document.url fc) (Document.file_ext fc)
                (Document.write_to_disk fc) ;;
      cls <- match dict_get (Document.download_method dataset) handlers with
             | Some c => Ok c
             | None => Raise KeyError
             end ;;
      entry <- cls file (Document.handler_cfg dataset) ;;
      build_datasets folder rest (entries ++ [entry])
  end.

Fixpoint build (config_file : list Document.folder_config)
    (entries : list DownloadHandler) : result (list DownloadHandler) :=
  match config_file with
  | [] => Ok entries
  | folder_config :: rest =>
      entries <- build_datasets (Document.folder folder_config)
                   (Document.datasets folder_config) entries ;;
      build rest entries
  end.

End Build.

(** [_find_duplicate_url]; the warnings come out in the order they are
    raised. *)
Fixpoint find_duplicate_url_loop (entries : list DownloadHandler)
    (urls zip_urls : list string) : list warning :=
  match entries with
  | [] => []
  | entry :: rest =>
      let url := url (file entry) in
      if String.eqb (class_name entry) "ZipHandler" then
        if mem url zip_urls then
          ZipUrlTwice url :: find_duplicate_url_loop rest urls zip_urls
        else find_duplicate_url_loop rest urls (zip_urls ++ [url])
      else if negb (mem (class_name entry) ["ArcgisGeomHandler"]) then
        if mem url urls then
          UrlTwice url :: find_duplicate_url_loop rest urls zip_urls
        else find_duplicate_url_loop rest (urls ++ [url]) zip_urls
      else find_duplicate_url_loop rest urls zip_urls
  end.

Definition _find_duplicate_url (entries : list DownloadHandler) : list warning :=
  find_duplicate_url_loop entries [] [].

(** [_find_duplicate_filename]: the inner loop over one entry's names hands
    the names seen so far (the local list [filenames]) back to the outer one. *)
Fixpoint duplicate_filename_inner (names seen : list string)
  : list warning * list string :=
  match names with
  | [] => ([], seen)
  | filename :: rest =>
      if mem filename seen then
        let '(ws, seen) := duplicate_filename_inner rest seen in
        (FilenameTwice filename :: ws, seen)
      else duplicate_filename_inner rest (seen ++ [filename])
  end.

Fixpoint find_duplicate_filename_loop (entries : list DownloadHandler)
    (seen : list string) : list warning :=
  match entries with
  | [] => []
  | entry :: rest =>
      let '(ws, seen) := duplicate_filename_inner (filenames entry) seen in
      ws ++ find_duplicate_filename_loop rest seen
  end.

Definition _find_duplicate_filename (entries : list DownloadHandler)
  : list warning :=
  find_duplicate_filename_loop entries [].

(** [__post_init__]: the entries are built, then the two passes run; what
    they warn about is returned next to the object. *)
Definition post_init (handlers : list (string * handler_class))
    (url_ok : string -> bool) (config_file : list Document.folder_config)
  : result (t * list warning) :=
  entries <- build handlers url_ok config_file [] ;;
  Ok ({| config_file := config_file; entries := entries |},
      _find_duplicate_url entries ++ _find_duplicate_filename entries).

Fixpoint find_file_config_loop (entries : list DownloadHandler) (filename : string)
  : result DownloadHandler :=
  match entries with
  | [] => Raise ValueError
  | entry :: rest =>
      if mem filename (filenames entry) then Ok entry
      else find_file_config_loop rest filename
  end.

Definition find_file_config (self : t) (filename : string)
  : result DownloadHandler :=
  find_file_config_loop (entries self) filename.

End Config.

(* ================================================================= *)
(** ** [download/downloader.py] *)

(** [sorted] on a list of strings: ascending by code points. *)
Fixpoint insert_sorted (x : string) (l : list string) : list string :=
  match l with
  | [] => [x]
  | y :: l' => if String.leb x y then x :: l else y :: insert_sorted x l'
  end.

Fixpoint sorted (l : list string) : list string :=
  match l with
  | [] => []
  | x :: l' => insert_sorted x (sorted l')
  end.

(** The order [sorted] sorts by. *)
Definition le_str (a b : string) : Prop := String.leb a b = true.

(** [a == b] on lists of strings. *)
Definition list_eqb (a b : list string) : bool :=
  if list_eq_dec string_dec a b then true else false.

(** The order in which [list(s)] walks a set [s] of strings. Python fixes it
    by the hashes of the elements, which change from process to process; all
    that is known is that every element comes up once. [iter] is given the
    elements of the set in some listing and returns them in walking order. *)
Record set_order : Type := {
  iter : list string -> list string;
  iter_perm : forall l, Permutation (iter l) l
}.

Module Downloader.

Record t : Type := {
  config : Config.t;
  raw_directory : string;
  archive : bool;
  data : outputs
}.

Definition set_data (self : t) (d : outputs) : t :=
  {| config := config self; raw_directory := raw_directory self;
     archive := archive self; data := d |}.

(** The listing both [existing_files] and [old_data] start from. *)
Definition listed (self : t) (w : world) : list string :=
  filter (fun title => negb (contains "DS_Store" title))
    (glob_all (raw_directory self) (disk w)).

Definition existing_files (self : t) (w : world) : list string :=
  sorted (map path_stem (listed self w)).

Definition required_files (self : t) : list string :=
  sorted (flat_map filenames (Config.entries (config self))).

Definition old_data (self : t) (w : world) : list string :=
  filter (fun file => negb (mem (path_stem file) (required_files self)))
    (listed self w).

(** [list(set(required_files) - set(existing_files))]. *)
Definition missing (ord : set_order) (self : t) (w : world) : list string :=
  iter ord
    (filter (fun f => negb (mem f (existing_files self w)))
       (nodup string_dec (required_files self))).

Definition check (self : t) (w : world) : bool :=
  list_eqb (required_files self) (existing_files self w).

(** The body of [for missing_file in self.missing()]. *)
Fixpoint update_loop (self : t) (todo : list string) (download_status : bool)
    (w : world) : result bool * t * world :=
  match todo with
  | [] => (Ok download_status, self, w)
  | missing_file :: rest =>
      match Config.find_file_config (config self) missing_file with
      | Ok file =>
          let w := logger_info ("Downloading file: " ++ missing_file) w in
          match execute file (raw_directory self) w with
          | (Ok (status, fetched), w) =>
              let self :=
                if status then
                  set_data self
                    (fold_left (fun d item => dict_set (fst item) (snd item) d)
                       fetched (data self))
                else self in
              let download_status :=
                if negb status then false else download_status in
              update_loop self rest download_status w
          | (Raise e, w) => (Raise e, self, w)
          | (Diverge, w) => (Diverge, self, w)
          end
      | Raise e => (Raise e, self, w)
      | Diverge => (Diverge, self, w)
      end
  end.

Definition update (ord : set_order) (self : t) (w : world)
  : result bool * t * world :=
  let download_status := true in
  if check self w then
    (Ok download_status, self, logger_info "Data is up to date" w)
  else
    let w :=
      if archive self then archive_data (old_data self w) w
      else delete_data (old_data self w) w in
    update_loop self (missing ord self w) download_status w.

End Downloader.

(* ================================================================= *)
(** ** Scripts and traces used to state the retrieval properties *)

(** A page that is served after [k] replies without the ["features"] key:
    the block [(k, fs)]. *)
Definition block_script (blocks : list (nat * list feature))
  : list (option Response) :=
  flat_map (fun b => repeat featureless (fst b) ++ [page (snd b)]) blocks.

(** The requests that fetching [blocks] takes when the first of them is the
    page of iteration [i]: every attempt at a page repeats its request. *)
Fixpoint block_requests (params : list (string * pvalue)) (offset : Z)
    (url : string) (i : Z) (blocks : list (nat * list feature)) : list request :=
  match blocks with
  | [] => []
  | b :: bs =>
      repeat (page_request params offset url i) (S (fst b))
      ++ block_requests params offset url (i + 1) bs
  end.

(** The content of [raw_data] after [blocks] were fetched. *)
Definition block_pages (blocks : list (nat * list feature)) : list ret_json :=
  map (fun b => {| features := Some (snd b) |}) blocks.

(** A block is fetched within the retry ceiling and carries features. *)
Definition good_block (max_retries : Z) (b : nat * list feature) : Prop :=
  fst b < Z.to_nat max_retries /\ snd b <> [].

(** Pages served at the first attempt are blocks without retries. *)
Definition first_try (pages : list (list feature)) : list (nat * list feature) :=
  map (fun fs => (0, fs)) pages.

(* ================================================================= *)
(** ** Vocabulary of the configuration and reconciliation properties *)



(** The world after [update] has disposed of the old files. *)
Definition disposed (self : Downloader.t) (w : world) : world :=
  if Downloader.archive self then archive_data (Downloader.old_data self w) w
  else delete_data (Downloader.old_data self w) w.






(* ================================================================= *)
(** ** Sample data for the worked runs *)


Definition sample_dataset (method url output_filename : string) : Document.dataset :=
  {| Document.download_method := method;
     Document.file_cfg :=
       {| Document.url := url; Document.file_ext := "csv";
          Document.write_to_disk := None |};
     Document.handler_cfg :=
       {| Document.filename := "table"; Document.server := "ons";
          Document.outfields := Some ""; Document.format := "csv";
          Document.offset := None; Document.output_filename := output_filename |} |}.


(** A handler of this repository. *)
Definition lad_2020 : ArcgisGeomHandler.t :=
  {| ArcgisGeomHandler.file :=
       {| folder := "boundaries"; url := "https://example.org/";
          file_ext := "parquet"; write_to_disk := true |};
     ArcgisGeomHandler.filename := "LAD";
     ArcgisGeomHandler.server := "ons";
     ArcgisGeomHandler.outfields := Some "";
     ArcgisGeomHandler.format := "geojson";
     ArcgisGeomHandler.offset := 2000;
     ArcgisGeomHandler.output_filename := "lad_2020" |}.

(** The same dataset, declared a second time under another folder. *)
Definition lad_2020_again : ArcgisGeomHandler.t :=
  {| ArcgisGeomHandler.file :=
       {| folder := "lookups"; url := "https://example.org/";
          file_ext := "parquet"; write_to_disk := true |};
     ArcgisGeomHandler.filename := "LAD";
     ArcgisGeomHandler.server := "ons";
     ArcgisGeomHandler.outfields := Some "";
     ArcgisGeomHandler.format := "geojson";
     ArcgisGeomHandler.offset := 2000;
     ArcgisGeomHandler.output_filename := "lad_2020" |}.

(** A second handler, which keeps what it fetches in memory only. *)
Definition msoa_2021 : ArcgisGeomHandler.t :=
  {| ArcgisGeomHandler.file :=
       {| folder := "boundaries"; url := "https://example.org/";
          file_ext := "parquet"; write_to_disk := false |};
     ArcgisGeomHandler.filename := "MSOA";
     ArcgisGeomHandler.server := "ons";
     ArcgisGeomHandler.outfields := Some "";
     ArcgisGeomHandler.format := "geojson";
     ArcgisGeomHandler.offset := 0;
     ArcgisGeomHandler.output_filename := "msoa_2021" |}.

Definition sample_downloader (hs : list ArcgisGeomHandler.t) : Downloader.t :=
  {| Downloader.config :=
       {| Config.config_file := []; Config.entries := map arcgis hs |};
     Downloader.raw_directory := "data/raw";
     Downloader.archive := false;
     Downloader.data := [] |}.

Definition sample_world (files : list string) (replies : list (option Response))
  : world :=
  {| net := {| script := replies; sent := [] |};
     disk := files; log := []; clock := "2024-01-01_00:00:00" |}.

(** Two ways of walking a set: in the order of its listing, and backwards. *)
Definition walk_as_listed : set_order :=
  {| iter := fun l => l; iter_perm := fun l => Permutation_refl l |}.


(* ================================================================= *)
(** ** Further functions of [download/process/util.py] *)

(** [range(lo, hi)] on integers. *)
Definition py_range (lo hi : Z) : list Z :=
  map (fun k => (lo + Z.of_nat k)%Z) (seq 0 (Z.to_nat (hi - lo))).

(** [calc_years_in_range]; [int] raises [ValueError] on what it cannot read,
    and a third part of the range, if any, is not looked at. *)
Definition calc_years_in_range (year : string) : result (list Z) :=
  match split "-" year with
  | [] => Raise IndexError
  | [y0] =>
      match py_int y0 with
      | Some n => Ok [n]
      | None => Raise ValueError
      end
  | y0 :: y1 :: _ =>
      match py_int y0 with
      | None => Raise ValueError
      | Some lo =>
          match py_int y1 with
          | None => Raise ValueError
          | Some hi => Ok (py_range lo (hi + 1))
          end
      end
  end.

Definition FILE_TYPE_HANDLER : list (string * string) :=
  [ ("json", "json"); ("geojson", "json"); ("csv", "csv"); ("xlsx", "xlsx");
    ("ods", "ods"); ("xls", "xls"); ("html", "html"); ("zip", "zip");
    ("bin", "zip") ].

(** [s.lstrip(".")]. *)
Fixpoint lstrip_dots (s : string) : string :=
  match s with
  | String c r => if Ascii.eqb c "." then lstrip_dots r else s
  | EmptyString => EmptyString
  end.

Section ValidateFile.

(** What the standard library contributes: the media type that
    [email.message.Message] reads off a header value, and
    [mimetypes.guess_extension]. *)
Variable mimetype_of : string -> string.
Variable guess_extension : string -> option string.

(** [validate_file], given the value of the [Content-Type] header of the
    response ([None] when the header is absent). *)
Definition validate_file (ext : string) (header : option string) : bool :=
  let expected_ext := lower ext in
  let content_type := match header with Some v => v | None => EmptyString end in
  if String.eqb content_type EmptyString then true
  else
    match guess_extension (mimetype_of content_type) with
    | None => true
    | Some EmptyString => true
    | Some extension =>
        let extension := lstrip_dots extension in
        match dict_get extension FILE_TYPE_HANDLER with
        | None => false
        | Some file_type =>
            if negb (String.eqb file_type expected_ext) then false else true
        end
    end.

End ValidateFile.

(** [compute_memory_per_worker], its two optional arguments already turned
    into numbers of bytes; [total_available] is what
    [get_total_available_memory] reports, and [None] stands for the
    [ZeroDivisionError] of [//]. *)
Definition compute_memory_per_worker (total_available n_workers : Z)
    (mem_safety_margin memory_limit : option Z) : option Z :=
  let '(total_bytes, mem_safety_margin) :=
    match memory_limit, mem_safety_margin with
    | None, None =>
        (total_available,
         Z.min (500 * (1024 * 1024)) (total_available / 2))
    | None, Some margin => (total_available, margin)
    | Some limit, None => (limit, 0%Z)
    | Some limit, Some margin => (limit, margin)
    end in
  if (n_workers =? 0)%Z then None
  else Some ((total_bytes - mem_safety_margin) / n_workers)%Z.

(** [s.count(c)] for a character. *)
Fixpoint count_char (c : ascii) (s : string) : nat :=
  match s with
  | EmptyString => 0
  | String a r => (if Ascii.eqb a c then 1 else 0) + count_char c r
  end.

(* ================================================================= *)
(** ** [main.py] *)






(* ================================================================= *)
(** ** Vocabulary of the further properties *)

(** What the field validators leave of a handler that was constructed. *)
Definition validated (curr_year : Z) (h : ArcgisGeomHandler.t) : Prop :=
  dict_mem (ArcgisGeomHandler.server h) GEOMETRY_SERVERS = true
  /\ (0 <= ArcgisGeomHandler.offset h <= 2000)%Z
  /\ empty_value (ArcgisGeomHandler.filename h) = false
  /\ validate_output_filename curr_year (ArcgisGeomHandler.output_filename h)
     = Ok (ArcgisGeomHandler.output_filename h).

(** The datasets of a document, in the order of their declaration. *)
Definition all_datasets (config_file : list Document.folder_config)
  : list Document.dataset :=
  flat_map Document.datasets config_file.

(** A document with two datasets of the repository's own kind that share
    their URL. *)
Definition sample_document : list Document.folder_config :=
  [ {| Document.folder := "boundaries";
       Document.datasets :=
         [ sample_dataset "arcgis_geom_api" "https://example.org/data" "lad_2020";
           sample_dataset "arcgis_geom_api" "https://example.org/data" "msoa_2021" ] |} ].



(* ================================================================= *)
(** * Properties *)

(** ** Worked runs *)

Example retrieve_two_pages :
  iterative_geo_api_retrieve [("f", PStr "geojson")] 2 "u" 3
    {| script := [page ["a"; "b"]; featureless; page ["c"]; page []; page ["z"]];
       sent := [] |}
  = (Ok (Some ["a"; "b"; "c"], true),
     {| script := [page ["z"]];
        sent := [page_request [("f", PStr "geojson")] 2 "u" 1;
                 page_request [("f", PStr "geojson")] 2 "u" 2;
                 page_request [("f", PStr "geojson")] 2 "u" 2;
                 page_request [("f", PStr "geojson")] 2 "u" 3] |}).
Proof. vm_compute. reflexivity. Qed.

(** ** Filename validation *)

Section Validation.

Variable curr_year : Z.

Lemma validate_year_spec (year : string) (y : Z) :
  py_int year = Some y ->
  validate_year curr_year year = ((1990 <=? y)%Z && (y <=? curr_year)%Z).
Proof. unfold validate_year. intros ->. reflexivity. Qed.

Lemma validate_year_2019 :
  (2019 <= curr_year)%Z -> validate_year curr_year "2019" = true.
Proof.
  intros H. rewrite (validate_year_spec "2019" 2019) by reflexivity.
  apply andb_true_intro. split; apply Z.leb_le; lia.
Qed.

Lemma validate_year_2024 :
  (2024 <= curr_year)%Z -> validate_year curr_year "2024" = true.
Proof.
  intros H. rewrite (validate_year_spec "2024" 2024) by reflexivity.
  apply andb_true_intro. split; apply Z.leb_le; lia.
Qed.

Lemma validate_year_1800 : validate_year curr_year "1800" = false.
Proof. rewrite (validate_year_spec "1800" 1800) by reflexivity. reflexivity. Qed.

End Validation.

(** C8. Once the clock has reached 2024, the validator of output filenames
    accepts ["crime-data_2019"] and ["crime-data_2019-2024"]; whatever the
    year, it rejects ["crime data_2019"] with the whitespace error,
    ["crime-data-2019"] with the symbol-count error and ["crime-data_1800"]
    with the invalid-year error, three different exceptions. *)
Theorem validate_output_filename_examples (curr_year : Z) :
  (2024 <= curr_year)%Z ->
  validate_output_filename curr_year "crime-data_2019" = Ok "crime-data_2019"
  /\ validate_output_filename curr_year "crime-data_2019-2024"
     = Ok "crime-data_2019-2024"
  /\ validate_output_filename curr_year "crime data_2019" = Raise InvalidSpaceError
  /\ validate_output_filename curr_year "crime-data-2019"
     = Raise InvalidNumberOfSymbolsError
  /\ validate_output_filename curr_year "crime-data_1800" = Raise InvalidYearError
  /\ InvalidSpaceError <> InvalidNumberOfSymbolsError
  /\ InvalidNumberOfSymbolsError <> InvalidYearError
  /\ InvalidSpaceError <> InvalidYearError.
Proof.
  intros H. unfold validate_output_filename.
  repeat split; try discriminate; cbn;
    rewrite ?validate_year_2019, ?validate_year_2024, ?validate_year_1800
      by lia; reflexivity.
Qed.

Lemma validate_output_filename_examples_witness :
  (2024 <= 2026)%Z
  /\ validate_output_filename 2026 "crime-data_2019-2024"
     = Ok "crime-data_2019-2024".
Proof.
  split; [lia | apply (validate_output_filename_examples 2026); lia].
Defined.

(** ** Paginated retrieval *)

Lemma dict_set_twice {V : Type} (k : string) (v v' : V) (d : list (string * V)) :
  dict_set k v (dict_set k v' d) = dict_set k v d.
Proof.
  induction d as [|[k0 v0] d IH]; simpl.
  - rewrite String.eqb_refl. reflexivity.
  - destruct (String.eqb k0 k) eqn:E; simpl; rewrite E; [reflexivity|].
    now rewrite IH.
Qed.

Lemma dict_get_set {V : Type} (k : string) (v : V) (d : list (string * V)) :
  dict_get k (dict_set k v d) = Some v.
Proof.
  induction d as [|[k0 v0] d IH]; simpl.
  - now rewrite String.eqb_refl.
  - destruct (String.eqb k0 k) eqn:E; simpl; rewrite E; auto.
Qed.

Lemma dict_get_filter {V : Type} (p : V -> bool) (k : string) (v : V)
    (d : list (string * V)) :
  dict_get k d = Some v -> p v = true ->
  dict_get k (filter (fun kv => p (snd kv)) d) = Some v.
Proof.
  induction d as [|[k0 v0] d IH]; simpl; [discriminate|].
  destruct (String.eqb k0 k) eqn:E; intros H Hp.
  - injection H as ->. rewrite Hp. simpl. now rewrite E.
  - destruct (p v0); simpl; rewrite ?E; auto.
Qed.

(** The request of iteration [i] carries [resultOffset = offset * (i - 1)]. *)
Lemma page_request_offset params offset url i :
  dict_get "resultOffset" (req_query (page_request params offset url i))
  = Some (PInt (offset * (i - 1))).
Proof.
  unfold page_request, encode_params. simpl.
  apply (dict_get_filter (fun v => negb (is_PNone v))); [apply dict_get_set | reflexivity].
Qed.

Lemma range1_nonempty (m : Z) : (1 <= m)%Z -> range1 m <> [].
Proof.
  intros H. unfold range1. destruct (Z.to_nat m) eqn:E; [lia | discriminate].
Qed.

Lemma combine_pages_blocks blocks gdf :
  combine_pages (block_pages blocks) gdf = Ok (gdf ++ List.concat (map snd blocks)).
Proof.
  revert gdf. induction blocks as [|b bs IH]; intros gdf; simpl.
  - now rewrite app_nil_r.
  - rewrite IH. now rewrite app_assoc.
Qed.

Section RetrieveFacts.

Variables (offset : Z) (url : string) (max_retries : Z).
Variable params : list (string * pvalue).

(** With something to iterate over, the loop does not look at the value
    [ret_json] had before it. *)
Lemma retry_loop_fresh retries rj net :
  retries <> [] ->
  retry_loop url max_retries params retries rj net
  = retry_loop url max_retries params retries None net.
Proof.
  destruct retries as [|r rs]; [congruence | intros _; simpl].
  destruct (get_response_from_url _ net) as [[resp|] net']; [|reflexivity].
  destruct (json resp) as [j|]; [|reflexivity].
  destruct (features j); [reflexivity|].
  destruct (r =? max_retries)%Z; reflexivity.
Qed.

(** [k] replies without features, none of them on the last attempt, use up
    [k] attempts. *)
Lemma retry_loop_featureless k : forall a n rj s t,
  k < n -> Z.of_nat (a + n) = (max_retries + 1)%Z ->
  exists rj',
    retry_loop url max_retries params (map Z.of_nat (seq a n)) rj
      {| script := repeat featureless k ++ s; sent := t |}
    = retry_loop url max_retries params
        (map Z.of_nat (seq (a + k) (n - k))) rj'
        {| script := s; sent := t ++ repeat (attempt url params) k |}.
Proof.
  induction k as [|k IH]; intros a n rj s t Hk Hm.
  - exists rj. rewrite Nat.add_0_r, Nat.sub_0_r, app_nil_r. reflexivity.
  - destruct n as [|n]; [lia|]. simpl.
    replace (Z.of_nat a =? max_retries)%Z with false
      by (symmetry; apply Z.eqb_neq; lia).
    destruct (IH (S a) n (Some {| features := None |}) s (t ++ [(attempt url params)]))
      as [rj' E]; [lia | lia |].
    exists rj'. fold (attempt url params). rewrite E.
    rewrite <- app_assoc. simpl.
    now replace (a + S k) with (S (a + k)) by lia.
Qed.

Lemma retry_loop_page k fs rj s t :
  k < Z.to_nat max_retries ->
  retry_loop url max_retries params (range1 max_retries) rj
    {| script := repeat featureless k ++ page fs :: s; sent := t |}
  = (ForExit (Some {| features := Some fs |}),
     {| script := s; sent := t ++ repeat (attempt url params) (S k) |}).
Proof.
  intros Hk. unfold range1.
  destruct (retry_loop_featureless k 1 (Z.to_nat max_retries) rj
              (page fs :: s) t Hk ltac:(lia)) as [rj' ->].
  destruct (Z.to_nat max_retries - k) as [|n] eqn:E; [lia|]. simpl.
  fold (attempt url params). rewrite <- app_assoc. simpl.
  now rewrite <- repeat_cons.
Qed.

Lemma retry_loop_first fs rj s t :
  (1 <= max_retries)%Z ->
  retry_loop url max_retries params (range1 max_retries) rj
    {| script := page fs :: s; sent := t |}
  = (ForExit (Some {| features := Some fs |}),
     {| script := s; sent := t ++ [(attempt url params)] |}).
Proof. intros Hm. apply (retry_loop_page 0 fs rj s t). lia. Qed.

Lemma retry_loop_transport_failure k rj s t :
  k < Z.to_nat max_retries ->
  retry_loop url max_retries params (range1 max_retries) rj
    {| script := repeat featureless k ++ None :: s; sent := t |}
  = (ForReturn (None, false),
     {| script := s; sent := t ++ repeat (attempt url params) (S k) |}).
Proof.
  intros Hk. unfold range1.
  destruct (retry_loop_featureless k 1 (Z.to_nat max_retries) rj
              (None :: s) t Hk ltac:(lia)) as [rj' ->].
  destruct (Z.to_nat max_retries - k) as [|n] eqn:E; [lia|]. simpl.
  fold (attempt url params). rewrite <- app_assoc. simpl.
  now rewrite <- repeat_cons.
Qed.

Lemma retry_loop_exhausted rj s t :
  (1 <= max_retries)%Z ->
  retry_loop url max_retries params (range1 max_retries) rj
    {| script := repeat featureless (Z.to_nat max_retries) ++ s; sent := t |}
  = (ForReturn (None, false),
     {| script := s; sent := t ++ repeat (attempt url params) (Z.to_nat max_retries) |}).
Proof.
  intros Hm. unfold range1.
  destruct (Z.to_nat max_retries) as [|n] eqn:E; [lia|].
  cbn [repeat]. rewrite (repeat_cons n featureless), (repeat_cons n (attempt url params)), <- app_assoc.
  destruct (retry_loop_featureless n 1 (S n) rj
              (([featureless] ++ s)) t ltac:(lia) ltac:(lia)) as [rj' ->].
  replace (S n - n) with 1 by lia. cbn -[Z.of_nat Z.eqb].
  replace (Z.of_nat (S n) =? max_retries)%Z with true
    by (symmetry; apply Z.eqb_eq; lia).
  fold (attempt url params). rewrite <- app_assoc. reflexivity.
Qed.

End RetrieveFacts.

Section WhileFacts.

Variables (offset : Z) (url : string) (max_retries : Z).

Lemma while_loop_params fuel v params i raw rj net :
  while_loop offset url max_retries fuel
    (dict_set "resultOffset" v params) i raw rj net
  = while_loop offset url max_retries fuel params i raw rj net.
Proof. destruct fuel; simpl; [reflexivity|]. now rewrite dict_set_twice. Qed.

Lemma while_loop_fresh fuel params i raw rj net :
  (1 <= max_retries)%Z ->
  while_loop offset url max_retries fuel params i raw rj net
  = while_loop offset url max_retries fuel params i raw None net.
Proof.
  intros Hm. destruct fuel; simpl; [reflexivity|].
  rewrite retry_loop_fresh by now apply range1_nonempty.
  reflexivity.
Qed.

(** Fetching a run of good blocks takes one iteration per block and leaves
    the loop where it would be had it started after them. *)
Lemma while_loop_blocks blocks : forall fuel params i raw rj s t,
  offset <> 0%Z -> (1 <= max_retries)%Z ->
  Forall (good_block max_retries) blocks ->
  while_loop offset url max_retries (List.length blocks + fuel) params i raw rj
    {| script := block_script blocks ++ s; sent := t |}
  = while_loop offset url max_retries fuel params
      (i + Z.of_nat (List.length blocks)) (raw ++ block_pages blocks) None
      {| script := s; sent := t ++ block_requests params offset url i blocks |}.
Proof.
  induction blocks as [|[k fs] bs IH]; intros fuel params i raw rj s t Ho Hm Hg.
  - simpl. rewrite Z.add_0_r, !app_nil_r. now apply while_loop_fresh.
  - inversion Hg as [|? ? [Hk Hfs] Hbs]; subst. simpl in Hk, Hfs.
    cbn [List.length Nat.add while_loop block_script flat_map fst snd].
    rewrite <- !app_assoc. cbn [app].
    rewrite retry_loop_page by assumption.
    cbn [features]. destruct fs as [|f fs]; [congruence|].
    replace (offset =? 0)%Z with false by (symmetry; now apply Z.eqb_neq).
    rewrite while_loop_params.
    change (flat_map _ bs) with (block_script bs).
    rewrite IH by assumption.
    cbn [block_requests block_pages map fst snd].
    rewrite <- !app_assoc. cbn [app].
    f_equal. lia.
Qed.






(** With [offset = 0] the loop body runs once: what the run sends and
    consumes is what its one retry loop does. *)
Lemma while_loop_unpaged fuel params i raw rj net :
  offset = 0%Z ->
  snd (while_loop offset url max_retries (S fuel) params i raw rj net)
  = snd (retry_loop url max_retries
           (dict_set "resultOffset" (PInt (offset * (i - 1))) params)
           (range1 max_retries) rj net).
Proof.
  intros ->. simpl.
  destruct (retry_loop _ _ _ _ _ _) as [[r|e|[rj'|]] net']; try reflexivity.
  destruct (features rj') as [[|f fs]|]; reflexivity.
Qed.

(** A retry loop sends its one request again and again, at most once per
    attempt, takes one reply for each, and stops after the first unless
    that reply is a body without features. *)
Lemma retry_loop_requests params retries : forall rj net,
    let net' := snd (retry_loop url max_retries params retries rj net) in
  exists n,
    n <= List.length retries
    /\ (retries <> [] -> 1 <= n)
    /\ (hd_error (script net) <> Some featureless -> n <= 1)
    /\ sent net' = sent net ++ repeat (attempt url params) n
    /\ script net' = skipn n (script net).
Proof.
  induction retries as [|r rs IH]; intros rj net net'.
  - exists 0. subst net'. simpl. rewrite app_nil_r.
    repeat split; auto; congruence.
  - subst net'. simpl. unfold get_response_from_url.
    destruct (script net) as [|[resp|] s] eqn:Es.
    + exists 1. simpl. repeat split; auto; lia.
    + destruct (json resp) as [j|] eqn:Ej;
        [|exists 1; simpl; repeat split; auto; lia].
      destruct (features j) eqn:Ef;
        [exists 1; simpl; repeat split; auto; lia|].
      destruct (r =? max_retries)%Z;
        [exists 1; simpl; repeat split; auto; lia|].
      destruct (IH (Some j) {| script := s; sent := sent net ++ [attempt url params] |})
        as (n & Hn & _ & _ & Hs & Hk).
      exists (S n). simpl in *. fold (attempt url params). rewrite Hs, Hk.
      rewrite <- app_assoc. repeat split; auto; try lia.
      intros Hh. exfalso. apply Hh. unfold featureless.
      destruct resp as [jr]; simpl in Ej; subst jr.
      destruct j as [fj]; simpl in Ef; subst fj. reflexivity.
    + exists 1. simpl. repeat split; auto; lia.
Qed.

End WhileFacts.

Lemma block_script_first_try pages :
  block_script (first_try pages) = map page pages.
Proof.
  induction pages as [|fs pages IH]; simpl; [reflexivity|].
  f_equal. exact IH.
Qed.

Lemma block_requests_first_try params offset url pages : forall a,
  block_requests params offset url (Z.of_nat a) (first_try pages)
  = map (fun i => page_request params offset url (Z.of_nat i))
      (seq a (List.length pages)).
Proof.
  induction pages as [|fs pages IH]; intros a; simpl; [reflexivity|].
  f_equal. rewrite <- IH. f_equal. lia.
Qed.

Lemma good_first_try max_retries pages :
  (1 <= max_retries)%Z -> Forall (fun fs => fs <> []) pages ->
  Forall (good_block max_retries) (first_try pages).
Proof.
  intros Hm H. unfold first_try. apply Forall_map.
  eapply Forall_impl; [|exact H]. intros fs Hfs. split; simpl; [lia | exact Hfs].
Qed.

Lemma finish_blocks blocks :
  finish (block_pages blocks) = Ok (Some (List.concat (map snd blocks)), true).
Proof. unfold finish. now rewrite combine_pages_blocks. Qed.

(** C2. With a page size [offset > 0], when the API serves [N] pages with
    features and then a page with an empty feature list, every reply
    decodable and carrying the key, the retrieval sends exactly [N + 1]
    requests, the one of iteration [i] with [resultOffset = offset * (i - 1)],
    and returns success with the features of the [N] pages in order. *)
Theorem pagination_termination params offset url max_retries pages rest t :
  (0 < offset)%Z -> (1 <= max_retries)%Z ->
  Forall (fun fs => fs <> []) pages ->
  let requests :=
    map (fun i => page_request params offset url (Z.of_nat i))
      (seq 1 (S (List.length pages))) in
  iterative_geo_api_retrieve params offset url max_retries
    {| script := map page pages ++ page [] :: rest; sent := t |}
  = (Ok (Some (List.concat pages), true),
     {| script := rest; sent := t ++ requests |})
  /\ List.length requests = List.length pages + 1
  /\ forall i,
       dict_get "resultOffset" (req_query (page_request params offset url i))
       = Some (PInt (offset * (i - 1))).
Proof.
  intros Ho Hm Hp requests. split; [|split].
  - unfold iterative_geo_api_retrieve. cbn [script].
    rewrite length_app, length_map. cbn [List.length].
    replace (S (List.length pages + S (List.length rest)))
      with (List.length (first_try pages) + S (S (List.length rest)))
      by (unfold first_try; rewrite length_map; lia).
    rewrite <- block_script_first_try.
    rewrite while_loop_blocks by (try apply good_first_try; auto; lia).
    cbn [while_loop].
    rewrite retry_loop_first by lia.
    cbn [features app]. rewrite finish_blocks.
    unfold first_try at 1. rewrite map_map. cbn [snd]. rewrite map_id.
    change 1%Z with (Z.of_nat 1). rewrite block_requests_first_try.
    unfold first_try. rewrite length_map.
    subst requests. rewrite seq_S, map_app, <- app_assoc. cbn [map app].
    unfold page_request, attempt. do 9 f_equal. lia.
  - subst requests. rewrite length_map, length_seq. lia.
  - intros i. apply page_request_offset.
Qed.

Lemma pagination_termination_witness :
  iterative_geo_api_retrieve [("f", PStr "geojson")] 2000 "u" 3
    {| script := [page ["a"; "b"]; page ["c"]; page []; page ["z"]]; sent := [] |}
  = (Ok (Some ["a"; "b"; "c"], true),
     {| script := [page ["z"]];
        sent := [page_request [("f", PStr "geojson")] 2000 "u" 1;
                 page_request [("f", PStr "geojson")] 2000 "u" 2;
                 page_request [("f", PStr "geojson")] 2000 "u" 3] |}).
Proof.
  apply (pagination_termination [("f", PStr "geojson")] 2000 "u" 3
           [["a"; "b"]; ["c"]] [page ["z"]] []).
  - lia.
  - lia.
  - repeat constructor; discriminate.
Defined.

Lemma block_script_length blocks :
  List.length blocks <= List.length (block_script blocks).
Proof.
  induction blocks as [|b bs IH]; simpl; [lia|].
  rewrite !length_app. simpl. fold (block_script bs). lia.
Qed.

(** C3. Once the fetch of some page reports a transport failure, or once a
    page comes without the ["features"] key on all [max_retries] attempts,
    the retrieval returns [(None, False)], whatever pages were fetched
    before: no combination of the earlier pages is handed back. (Pages can
    only precede the failing one when paging is on.) *)
Theorem pagination_abort params offset url max_retries blocks k rest t :
  (1 <= max_retries)%Z ->
  (offset = 0%Z -> blocks = []) ->
  Forall (good_block max_retries) blocks ->
  k < Z.to_nat max_retries ->
  fst (iterative_geo_api_retrieve params offset url max_retries
         {| script := block_script blocks ++ repeat featureless k ++ None :: rest;
            sent := t |})
  = Ok (None, false)
  /\ fst (iterative_geo_api_retrieve params offset url max_retries
            {| script := block_script blocks
                         ++ repeat featureless (Z.to_nat max_retries) ++ rest;
               sent := t |})
     = Ok (None, false).
Proof.
  intros Hm Ho Hg Hk.
  assert (step : forall s,
    exists fuel,
      iterative_geo_api_retrieve params offset url max_retries
        {| script := block_script blocks ++ s; sent := t |}
      = while_loop offset url max_retries (S fuel)
          params (1 + Z.of_nat (List.length blocks)) (block_pages blocks) None
          {| script := s; sent := t ++ block_requests params offset url 1 blocks |}).
  { intros s. unfold iterative_geo_api_retrieve. cbn [script].
    destruct (Z.eq_dec offset 0) as [E | E].
    - rewrite (Ho E). simpl. rewrite app_nil_r. eauto.
    - pose proof (block_script_length blocks) as Hl.
      exists (List.length (block_script blocks ++ s) - List.length blocks).
      replace (S (List.length (block_script blocks ++ s)))
        with (List.length blocks
              + S (List.length (block_script blocks ++ s) - List.length blocks))
        by (rewrite length_app; lia).
      now rewrite while_loop_blocks by assumption. }
  split.
  - destruct (step (repeat featureless k ++ None :: rest)) as [fuel ->].
    cbn [while_loop]. rewrite retry_loop_transport_failure by assumption.
    reflexivity.
  - destruct (step (repeat featureless (Z.to_nat max_retries) ++ rest))
      as [fuel ->].
    cbn [while_loop]. rewrite retry_loop_exhausted by assumption.
    reflexivity.
Qed.

Lemma pagination_abort_witness :
  fst (iterative_geo_api_retrieve [] 2 "u" 3
         {| script := [page ["a"]; featureless; None; page []]; sent := [] |})
  = Ok (None, false)
  /\ fst (iterative_geo_api_retrieve [] 2 "u" 3
            {| script := [page ["a"]; featureless; featureless; featureless;
                          page ["b"]; page []];
               sent := [] |})
     = Ok (None, false).
Proof.
  apply (pagination_abort [] 2 "u" 3 [(0, ["a"])] 1 [page []] []).
  - lia.
  - discriminate.
  - constructor; [split; simpl; [lia | discriminate] | constructor].
  - simpl; lia.
Defined.

(** C7, as stated, fails: with [offset = 0] a reply that decodes but lacks
    the ["features"] key is retried, so the run below sends two requests. *)
Lemma unpaged_two_requests :
  let out := iterative_geo_api_retrieve [] 0 "u" 3
               {| script := [featureless; page ["a"]]; sent := [] |} in
  fst out = Ok (Some ["a"], true)
  /\ List.length (sent (snd out)) = 2
  /\ List.length (sent (snd out)) <> 1.
Proof. vm_compute. repeat split; discriminate. Qed.

(** C7, amended. With [offset = 0] the retrieval fetches one page only: it
    sends the request of iteration 1 ([resultOffset = 0]) at least once and
    at most [max_retries] times, taking one reply for each, and exactly once
    unless the first reply is a body without the ["features"] key; when the
    first reply carries the key, it returns that page's features, be they
    empty or not, and leaves every later reply untouched. *)
Theorem unpaged_single_page params url max_retries net :
  (1 <= max_retries)%Z ->
  let out := iterative_geo_api_retrieve params 0 url max_retries net in
  (exists n,
      1 <= n <= Z.to_nat max_retries
      /\ sent (snd out) = sent net ++ repeat (page_request params 0 url 1) n
      /\ script (snd out) = skipn n (script net))
  /\ (hd_error (script net) <> Some featureless ->
      sent (snd out) = sent net ++ [page_request params 0 url 1])
  /\ (forall fs rest,
        script net = page fs :: rest ->
        fst out = Ok (Some fs, true) /\ script (snd out) = rest).
Proof.
  intros Hm out.
  assert (E : snd out
              = snd (retry_loop url max_retries
                       (dict_set "resultOffset" (PInt (0 * (1 - 1))) params)
                       (range1 max_retries) None net)).
  { subst out. unfold iterative_geo_api_retrieve.
    now rewrite while_loop_unpaged. }
  destruct (retry_loop_requests url max_retries
              (dict_set "resultOffset" (PInt (0 * (1 - 1))) params)
              (range1 max_retries) None net)
    as (n & Hn & Hpos & Hone & Hs & Hk).
  cbv zeta in Hs, Hk. rewrite <- E in Hs, Hk.
  assert (Hlen : List.length (range1 max_retries) = Z.to_nat max_retries)
    by (unfold range1; now rewrite length_map, length_seq).
  specialize (Hpos (range1_nonempty _ Hm)).
  split; [|split].
  - exists n. repeat split; try lia; assumption.
  - intros Hh. specialize (Hone Hh).
    replace n with 1 in Hs by lia. exact Hs.
  - intros fs rest Hsc. subst out. unfold iterative_geo_api_retrieve.
    destruct net as [sc t]. simpl in Hsc. subst sc. cbn [script List.length while_loop].
    rewrite retry_loop_first by assumption. cbn [features].
    destruct fs as [|f fs]; cbn [app Z.eqb finish combine_pages features bind fst snd script];
      split; reflexivity.
Qed.

Lemma unpaged_single_page_witness :
  let out := iterative_geo_api_retrieve [] 0 "u" 3
               {| script := [page []; page ["a"]]; sent := [] |} in
  fst out = Ok (Some [], true) /\ script (snd out) = [page ["a"]].
Proof.
  apply (unpaged_single_page [] "u" 3
           {| script := [page []; page ["a"]]; sent := [] |}); [lia | reflexivity].
Defined.

(** ** The handler *)

(** C6. When the paginated retrieval of an [ArcgisGeomHandler] fails,
    [execute] returns [(False, {output_filename: None})], and the file store
    is left as it was; and whatever [execute] returns, on success and on
    failure alike, the returned mapping has exactly the key
    [output_filename], bound to [None] precisely when the status is false. *)
Theorem execute_keeps_output_key (self : ArcgisGeomHandler.t) path w :
  (forall suffix gdf,
      dict_get (ArcgisGeomHandler.server self) GEOMETRY_SERVERS = Some suffix ->
      fst (iterative_geo_api_retrieve (ArcgisGeomHandler.params self)
             (ArcgisGeomHandler.offset self)
             (url (ArcgisGeomHandler.file self)
              ++ ArcgisGeomHandler.filename self ++ suffix)%string
             3 (net w))
      = Ok (gdf, false) ->
      fst (ArcgisGeomHandler.execute self path w)
      = Ok (false, [(ArcgisGeomHandler.output_filename self, None)])
      /\ disk (snd (ArcgisGeomHandler.execute self path w)) = disk w)
  /\ (forall status fetched,
        fst (ArcgisGeomHandler.execute self path w) = Ok (status, fetched) ->
        exists v,
          fetched = [(ArcgisGeomHandler.output_filename self, v)]
          /\ dict_get (ArcgisGeomHandler.output_filename self) fetched = Some v
          /\ (status = false <-> v = None)).
Proof.
  split.
  - intros suffix gdf Hs Hf. unfold ArcgisGeomHandler.execute. rewrite Hs.
    destruct (iterative_geo_api_retrieve _ _ _ _ _) as [r n].
    simpl in Hf. subst r. simpl. split; reflexivity.
  - intros status fetched. unfold ArcgisGeomHandler.execute.
    destruct (dict_get _ GEOMETRY_SERVERS) as [suffix|]; [|discriminate].
    destruct (iterative_geo_api_retrieve _ _ _ _ _) as [[[gdf st]|e|] n];
      try discriminate.
    destruct st; simpl.
    + destruct gdf as [gdf|]; [|discriminate]. simpl.
      intros H. injection H as <- <-. eexists. simpl.
      rewrite String.eqb_refl. repeat split; discriminate.
    + intros H. injection H as <- <-. exists None. simpl.
      rewrite String.eqb_refl. repeat split; reflexivity.
Qed.

Lemma execute_keeps_output_key_witness :
  let w := {| net := {| script := [page ["a"]; None]; sent := [] |};
              disk := []; log := []; clock := "2024-01-01_00:00:00" |} in
  fst (ArcgisGeomHandler.execute lad_2020 "data/raw" w)
  = Ok (false, [("lad_2020", None)])
  /\ disk (snd (ArcgisGeomHandler.execute lad_2020 "data/raw" w)) = disk w.
Proof.
  intros w.
  apply (proj1 (execute_keeps_output_key lad_2020 "data/raw" w)
           "/FeatureServer/0/query?" None); reflexivity.
Defined.

(** ** Configuration *)

Lemma duplicate_filename_inner_kind names : forall seen,
  filter is_url_warning (fst (Config.duplicate_filename_inner names seen)) = [].
Proof.
  induction names as [|f names IH]; intros seen; simpl; [reflexivity|].
  destruct (mem f seen); [|apply IH].
  specialize (IH seen).
  destruct (Config.duplicate_filename_inner names seen) as [ws seen'].
  exact IH.
Qed.

Lemma find_duplicate_filename_kind entries : forall seen,
  filter is_url_warning (Config.find_duplicate_filename_loop entries seen) = [].
Proof.
  induction entries as [|e entries IH]; intros seen; simpl; [reflexivity|].
  pose proof (duplicate_filename_inner_kind (filenames e) seen) as H.
  destruct (Config.duplicate_filename_inner (filenames e) seen) as [ws seen'].
  simpl in H. now rewrite filter_app, H, IH.
Qed.




(** ** Sorting and membership *)

Lemma mem_In x l : mem x l = true <-> In x l.
Proof.
  unfold mem. rewrite existsb_exists. split.
  - intros (y & Hy & E). apply String.eqb_eq in E. now subst.
  - intros H. exists x. split; [assumption | apply String.eqb_refl].
Qed.

Lemma mem_false x l : mem x l = false <-> ~ In x l.
Proof.
  rewrite <- mem_In. destruct (mem x l); split; congruence.
Qed.

Lemma leb_trans a b c :
  String.leb a b = true -> String.leb b c = true -> String.leb a c = true.
Proof.
  unfold String.leb. intros Hab Hbc.
  destruct (String.compare a b) eqn:Eab; [|clear Hab|discriminate].
  - apply String_as_OT.cmp_eq in Eab. now subst.
  - destruct (String.compare b c) eqn:Ebc; [|clear Hbc|discriminate].
    + apply String_as_OT.cmp_eq in Ebc. subst. now rewrite Eab.
    + apply String_as_OT.cmp_lt in Eab, Ebc.
      pose proof (String_as_OT.lt_trans _ _ _ Eab Ebc) as H.
      apply String_as_OT.cmp_lt in H. unfold String_as_OT.cmp in H.
      now rewrite H.
Qed.

Lemma insert_sorted_perm x l : Permutation (insert_sorted x l) (x :: l).
Proof.
  induction l as [|y l IH]; simpl; [reflexivity|].
  destruct (String.leb x y); [reflexivity|].
  rewrite IH. apply perm_swap.
Qed.

Lemma sorted_perm l : Permutation (sorted l) l.
Proof.
  induction l as [|x l IH]; simpl; [reflexivity|].
  rewrite insert_sorted_perm. now constructor.
Qed.

Lemma insert_sorted_strongly x l :
  StronglySorted le_str l -> StronglySorted le_str (insert_sorted x l).
Proof.
  induction l as [|y l IH]; intros H; simpl.
  - repeat constructor.
  - inversion H as [|? ? Hl Hy]; subst.
    destruct (String.leb x y) eqn:E.
    + constructor; [assumption|]. constructor; [exact E|].
      eapply Forall_impl; [|exact Hy]. intros z Hz. eapply leb_trans; eauto.
    + constructor; [now apply IH|].
      apply (Permutation_Forall (Permutation_sym (insert_sorted_perm x l))).
      constructor; [|assumption].
      destruct (String.leb_total x y) as [H1 | H1]; [congruence | exact H1].
Qed.

Lemma sorted_strongly l : StronglySorted le_str (sorted l).
Proof.
  induction l as [|x l IH]; simpl; [constructor | now apply insert_sorted_strongly].
Qed.

Lemma strongly_sorted_unique l1 : forall l2,
  StronglySorted le_str l1 -> StronglySorted le_str l2 ->
  Permutation l1 l2 -> l1 = l2.
Proof.
  induction l1 as [|a l1 IH]; intros l2 H1 H2 P.
  - apply Permutation_nil in P. now subst.
  - destruct l2 as [|b l2]; [apply Permutation_sym, Permutation_nil in P; discriminate|].
    inversion H1 as [|? ? S1 F1]; inversion H2 as [|? ? S2 F2]; subst.
    assert (a = b) as ->.
    { assert (Ia : In a (b :: l2)) by (eapply Permutation_in; [exact P | now left]).
      assert (Ib : In b (a :: l1))
        by (eapply Permutation_in; [exact (Permutation_sym P) | now left]).
      destruct Ia as [-> | Ia]; [reflexivity|].
      destruct Ib as [-> | Ib]; [reflexivity|].
      rewrite Forall_forall in F1, F2.
      apply String.leb_antisym; [now apply F1 | now apply F2]. }
    f_equal. apply IH; try assumption. now apply Permutation_cons_inv in P.
Qed.

(** Two lists sort to the same list exactly when one rearranges the other. *)
Lemma sorted_eq_iff l1 l2 : sorted l1 = sorted l2 <-> Permutation l1 l2.
Proof.
  split.
  - intros E. rewrite <- (sorted_perm l1), E. apply sorted_perm.
  - intros P. apply strongly_sorted_unique; try apply sorted_strongly.
    now rewrite !sorted_perm.
Qed.

Lemma In_sorted x l : In x (sorted l) <-> In x l.
Proof.
  split; apply Permutation_in;
    [apply sorted_perm | apply Permutation_sym, sorted_perm].
Qed.

Lemma mem_sorted x l : mem x (sorted l) = mem x l.
Proof.
  destruct (mem x l) eqn:E.
  - apply mem_In, In_sorted, mem_In, E.
  - apply mem_false. rewrite In_sorted. now apply mem_false.
Qed.

Lemma list_eqb_eq a b : list_eqb a b = true <-> a = b.
Proof.
  unfold list_eqb. destruct (list_eq_dec string_dec a b); split; congruence.
Qed.

(** ** Reconciliation *)

Lemma find_file_config_found entries f :
  In f (flat_map filenames entries) ->
  exists h,
    Config.find_file_config_loop entries f = Ok h
    /\ In h entries /\ In f (filenames h).
Proof.
  induction entries as [|e entries IH]; simpl; [contradiction|].
  intros H. destruct (mem f (filenames e)) eqn:E.
  - exists e. apply mem_In in E. auto.
  - apply in_app_or in H. destruct H as [H | H].
    + apply mem_In in H. congruence.
    + destruct (IH H) as (h & Hh & Hin & Hf). exists h. auto.
Qed.

(** What [missing] returns: the required names that are not stems of the
    store, each once. *)
Lemma missing_perm ord self w :
  Permutation (Downloader.missing ord self w)
    (filter (fun f => negb (mem f (Downloader.existing_files self w)))
       (nodup string_dec (Downloader.required_files self))).
Proof. apply iter_perm. Qed.

Lemma missing_spec ord self w f :
  In f (Downloader.missing ord self w)
  <-> In f (Downloader.required_files self)
      /\ ~ In f (Downloader.existing_files self w).
Proof.
  transitivity
    (In f (filter (fun f => negb (mem f (Downloader.existing_files self w)))
             (nodup string_dec (Downloader.required_files self)))).
  - split; apply Permutation_in;
      [apply missing_perm | apply Permutation_sym, missing_perm].
  - rewrite filter_In, nodup_In, negb_true_iff, mem_false. reflexivity.
Qed.


Lemma retry_loop_raises url max_retries params retries : forall rj net e,
  fst (retry_loop url max_retries params retries rj net) = ForRaise e ->
  e = JSONDecodeError.
Proof.
  induction retries as [|r rs IH]; intros rj net e; simpl; [discriminate|].
  destruct (get_response_from_url _ net) as [[resp|] net']; [|discriminate].
  destruct (json resp) as [j|]; [|intros H; simpl in H; congruence].
  destruct (features j); [discriminate|].
  destruct (r =? max_retries)%Z; [discriminate | apply IH].
Qed.

Lemma finish_raises raw e : finish raw = Raise e -> e = KeyError.
Proof.
  unfold finish. generalize (@nil feature).
  induction raw as [|r raw IH]; intros g; simpl; [discriminate|].
  destruct (features r); [apply IH | simpl; congruence].
Qed.

Lemma while_loop_raises offset url max_retries fuel :
  forall params i raw rj net,
    fst (while_loop offset url max_retries fuel params i raw rj net)
    <> Raise ValueError.
Proof.
  induction fuel as [|fuel IH]; intros params i raw rj net; simpl; [discriminate|].
  destruct (retry_loop _ _ _ _ _ _) as [out net'] eqn:E.
  destruct out as [r|e|[rj'|]]; simpl; try discriminate.
  - intros H. injection H as ->.
    apply (f_equal fst) in E. simpl in E. apply retry_loop_raises in E.
    discriminate.
  - assert (F : forall raw', finish raw' <> Raise ValueError)
      by (intros raw' H; apply finish_raises in H; discriminate).
    destruct (features rj') as [[|f fs]|]; simpl; try discriminate; [apply F|].
    destruct (offset =? 0)%Z; simpl; [apply F | apply IH].
Qed.

(** The only handler class of the repository never raises [ValueError]. *)
Lemma arcgis_execute_raises h path w :
  fst (ArcgisGeomHandler.execute h path w) <> Raise ValueError.
Proof.
  unfold ArcgisGeomHandler.execute.
  destruct (dict_get _ GEOMETRY_SERVERS); [|discriminate].
  pose proof (while_loop_raises (ArcgisGeomHandler.offset h)
                (url (ArcgisGeomHandler.file h)
                 ++ ArcgisGeomHandler.filename h ++ s)%string 3
                (S (List.length (script (net w))))
                (ArcgisGeomHandler.params h) 1 [] None (net w)) as R.
  fold (iterative_geo_api_retrieve (ArcgisGeomHandler.params h)
          (ArcgisGeomHandler.offset h)
          (url (ArcgisGeomHandler.file h) ++ ArcgisGeomHandler.filename h ++ s)%string
          3 (net w)) in R.
  destruct (iterative_geo_api_retrieve _ _ _ _ _) as [[[gdf st]|e|] n]; simpl in *.
  - destruct st; simpl; [|discriminate].
    destruct gdf; simpl; discriminate.
  - congruence.
  - discriminate.
Qed.

Lemma update_loop_lookup todo : forall self st w,
  (forall f, In f todo ->
     In f (flat_map filenames (Config.entries (Downloader.config self)))) ->
  (forall h path w', In h (Config.entries (Downloader.config self)) ->
     fst (execute h path w') <> Raise ValueError) ->
  fst (fst (Downloader.update_loop self todo st w)) <> Raise ValueError.
Proof.
  induction todo as [|f todo IH]; intros self st w Hin Hex; simpl; [discriminate|].
  destruct (find_file_config_found _ f (Hin f (or_introl eq_refl)))
    as (h & Hh & Hhin & _).
  unfold Config.find_file_config. rewrite Hh.
  specialize (Hex h (Downloader.raw_directory self)
                (logger_info ("Downloading file: " ++ f) w) Hhin) as Hx.
  destruct (execute h _ _) as [[[status fetched]|e|] w']; simpl in *.
  - apply IH.
    + intros f' Hf'. destruct status; simpl; apply Hin; now right.
    + destruct status; simpl; exact Hex.
  - congruence.
  - discriminate.
Qed.

(** C10. Every name [missing] returns is a required name, so the lookup in
    the configuration finds a handler that produces it; hence [update] does
    not end in the lookup's not-found error, as long as no handler's
    [execute] raises a [ValueError] of its own, which the handlers of this
    repository never do. *)
Theorem update_lookup_never_fails ord self w :
  (forall f,
      In f (Downloader.missing ord self w) ->
      In f (Downloader.required_files self)
      /\ exists h,
           Config.find_file_config (Downloader.config self) f = Ok h
           /\ In h (Config.entries (Downloader.config self))
           /\ In f (filenames h))
  /\ ((forall h path w',
          In h (Config.entries (Downloader.config self)) ->
          fst (execute h path w') <> Raise ValueError) ->
      fst (fst (Downloader.update ord self w)) <> Raise ValueError)
  /\ (forall hs,
        Config.entries (Downloader.config self) = map arcgis hs ->
        fst (fst (Downloader.update ord self w)) <> Raise ValueError).
Proof.
  assert (L : forall w0 f, In f (Downloader.missing ord self w0) ->
                In f (flat_map filenames (Config.entries (Downloader.config self)))).
  { intros w0 f Hf. apply missing_spec in Hf. destruct Hf as [Hr _].
    exact (proj1 (In_sorted _ _) Hr). }
  assert (U : (forall h path w',
                  In h (Config.entries (Downloader.config self)) ->
                  fst (execute h path w') <> Raise ValueError) ->
              fst (fst (Downloader.update ord self w)) <> Raise ValueError).
  { intros Hex. unfold Downloader.update.
    destruct (Downloader.check self w); [discriminate|].
    apply update_loop_lookup; [apply L | exact Hex]. }
  split; [|split].
  - intros f Hf. split; [now apply missing_spec in Hf|].
    apply find_file_config_found. eapply L, Hf.
  - exact U.
  - intros hs Hhs. apply U. intros h path w' Hh. rewrite Hhs in Hh.
    apply in_map_iff in Hh. destruct Hh as (a & <- & _).
    apply arcgis_execute_raises.
Qed.

Lemma find_file_config_In entries f h :
  Config.find_file_config_loop entries f = Ok h ->
  In h entries /\ In f (filenames h).
Proof.
  induction entries as [|e entries IH]; simpl; [discriminate|].
  destruct (mem f (filenames e)) eqn:E.
  - intros H. injection H as <-. apply mem_In in E. auto.
  - intros H. destruct (IH H). auto.
Qed.

Lemma arcgis_execute_log h path w :
  log (snd (ArcgisGeomHandler.execute h path w)) = log w.
Proof.
  unfold ArcgisGeomHandler.execute.
  destruct (dict_get _ GEOMETRY_SERVERS); [|reflexivity].
  destruct (iterative_geo_api_retrieve _ _ _ _ _) as [[[gdf st]|e|] n];
    try reflexivity.
  destruct st; [|reflexivity].
  destruct gdf; [|reflexivity].
  destruct (write_to_disk _); reflexivity.
Qed.





Lemma update_lookup_never_fails_witness :
  let self := sample_downloader [lad_2020; msoa_2021] in
  let w := sample_world [] [page ["a"]; page ["b"]; page []] in
  fst (fst (Downloader.update walk_as_listed self w)) <> Raise ValueError.
Proof.
  intros self w.
  apply (proj2 (proj2 (update_lookup_never_fails walk_as_listed self w))
           [lad_2020; msoa_2021]).
  reflexivity.
Defined.

(** [check] compares the two sorted lists, so it holds exactly when the
    required names and the stems of the listed files are the same up to
    order, each as often on one side as on the other. *)
Lemma check_true_iff self w :
  Downloader.check self w = true
  <-> Permutation
        (flat_map filenames (Config.entries (Downloader.config self)))
        (map path_stem (Downloader.listed self w)).
Proof.
  unfold Downloader.check. rewrite list_eqb_eq.
  unfold Downloader.required_files, Downloader.existing_files.
  apply sorted_eq_iff.
Qed.

(** Where neither side repeats a name, that is equality as sets. *)
Lemma check_same_set self w :
  NoDup (flat_map filenames (Config.entries (Downloader.config self))) ->
  NoDup (map path_stem (Downloader.listed self w)) ->
  (Downloader.check self w = true
   <-> forall f, In f (Downloader.required_files self)
                 <-> In f (Downloader.existing_files self w)).
Proof.
  intros N1 N2. rewrite check_true_iff.
  unfold Downloader.required_files, Downloader.existing_files. split.
  - intros P f. rewrite !In_sorted. split; apply Permutation_in;
      [exact P | exact (Permutation_sym P)].
  - intros H. apply NoDup_Permutation; try assumption.
    intros f. specialize (H f). now rewrite !In_sorted in H.
Qed.

(** C1. The required names and the stems of the store are the same set in
    the two situations below, a dataset declared twice and a stem present
    under two extensions; nothing is missing and nothing is old, yet [check]
    is false in both: it compares sorted lists, in which a repeated name
    counts twice. *)
Theorem check_counts_duplicates :
  let twice := sample_downloader [lad_2020; lad_2020_again] in
  let once := sample_downloader [lad_2020] in
  let w := sample_world ["data/raw/boundaries/lad_2020.parquet"] [] in
  let w2 := sample_world ["data/raw/boundaries/lad_2020.parquet";
                          "data/raw/boundaries/lad_2020.csv"] [] in
  (Downloader.required_files twice = ["lad_2020"; "lad_2020"]
   /\ Downloader.existing_files twice w = ["lad_2020"]
   /\ Downloader.missing walk_as_listed twice w = []
   /\ Downloader.old_data twice w = []
   /\ Downloader.check twice w = false)
  /\ (Downloader.required_files once = ["lad_2020"]
      /\ Downloader.existing_files once w2 = ["lad_2020"; "lad_2020"]
      /\ Downloader.missing walk_as_listed once w2 = []
      /\ Downloader.old_data once w2 = []
      /\ Downloader.check once w2 = false).
Proof. vm_compute. repeat split. Qed.

(** *** The listing of the store under disposal and writes *)




Lemma clock_archive_loop time ap old : forall w,
  clock (archive_loop time ap old w) = clock w.
Proof. induction old as [|p old IH]; intros w; simpl; [|rewrite IH]; reflexivity. Qed.





(** A loop that starts from a failure does not end in success. *)
Lemma update_loop_false todo : forall self w self' w',
  Downloader.update_loop self todo false w <> (Ok true, self', w').
Proof.
  induction todo as [|f todo IH]; intros self w self' w'; simpl; [discriminate|].
  destruct (Config.find_file_config _ f) as [h|e|]; try discriminate.
  destruct (execute h _ _) as [[[status fetched]|e|] w1]; try discriminate.
  destruct status; simpl; apply IH.
Qed.



(** *** Where a handler's file lands *)





(** The character [c] does not occur in [s]. *)
Lemma contains_char_cons c x s :
  contains (String c EmptyString) (String x s)
  = Ascii.eqb c x || contains (String c EmptyString) s.
Proof.
  simpl. destruct (ascii_dec c x) as [-> | N].
  - rewrite Ascii.eqb_refl. now destruct s.
  - apply Ascii.eqb_neq in N. now rewrite N.
Qed.

Lemma split_nonempty c s : split c s <> [].
Proof.
  destruct s as [|x s]; simpl; [discriminate|].
  destruct (Ascii.eqb x c); [discriminate|].
  destruct (split c s); discriminate.
Qed.









Lemma check_logger_info self msg w :
  Downloader.check self (logger_info msg w) = Downloader.check self w.
Proof. reflexivity. Qed.




(* ================================================================= *)
(** * Further properties *)

(** ** Construction of the configuration *)

Lemma validate_folder_ok folder r :
  validate_folder folder = Ok r ->
  r = folder /\ empty_value folder = false /\ string_contains_space folder = false.
Proof.
  unfold validate_folder. destruct (empty_value folder); [discriminate|].
  destruct (string_contains_space folder); [discriminate|].
  intros H. injection H as <-. auto.
Qed.

Lemma validate_file_ext_ok ext r :
  validate_file_ext ext = Ok r -> r = ext /\ empty_value ext = false.
Proof.
  unfold validate_file_ext. destruct (empty_value ext); [discriminate|].
  intros H. injection H as <-. auto.
Qed.

Lemma validate_url_ok url_ok url r :
  validate_url url_ok url = Ok r -> r = url /\ url_ok url = true.
Proof.
  unfold validate_url. destruct (url_ok url); [|discriminate].
  intros H. injection H as <-. auto.
Qed.

Lemma validate_filename_ok filename r :
  validate_filename filename = Ok r -> r = filename /\ empty_value filename = false.
Proof.
  unfold validate_filename. destruct (empty_value filename); [discriminate|].
  intros H. injection H as <-. auto.
Qed.

Lemma validate_server_ok server r :
  validate_server server = Ok r ->
  r = server /\ dict_mem server GEOMETRY_SERVERS = true.
Proof.
  unfold validate_server. destruct (dict_mem server GEOMETRY_SERVERS); [|discriminate].
  intros H. injection H as <-. auto.
Qed.

Lemma validate_offset_ok offset maximum r :
  validate_offset offset maximum = Ok r ->
  r = offset /\ (0 <= offset <= maximum)%Z.
Proof.
  unfold validate_offset.
  destruct (offset <? 0)%Z eqn:E1; [discriminate|].
  destruct (offset >? maximum)%Z eqn:E2; [discriminate|].
  intros H. injection H as <-. split; [reflexivity|].
  apply Z.ltb_ge in E1. rewrite Z.gtb_ltb in E2. apply Z.ltb_ge in E2. lia.
Qed.

Lemma validate_output_filename_same curr_year filename r :
  validate_output_filename curr_year filename = Ok r -> r = filename.
Proof.
  unfold validate_output_filename.
  destruct (empty_value filename); [discriminate|].
  destruct (string_contains_space filename); [discriminate|].
  destruct (invalid_symbol_count filename "_" 1); [discriminate|].
  destruct (string_contains_year curr_year filename) as [b|e|]; simpl;
    try discriminate.
  destruct b; simpl; [|discriminate]. intros H. now injection H.
Qed.

Lemma arcgis_init_ok curr_year file filename server outfields format offset
    output_filename h :
  ArcgisGeomHandler.init curr_year file filename server outfields format offset
    output_filename = Ok h ->
  ArcgisGeomHandler.file h = file
  /\ ArcgisGeomHandler.output_filename h = output_filename
  /\ validated curr_year h.
Proof.
  unfold ArcgisGeomHandler.init. intros H.
  destruct (validate_filename filename) as [fn|e|] eqn:E1; simpl in H;
    try discriminate.
  destruct (validate_server server) as [sv|e|] eqn:E2; simpl in H;
    try discriminate.
  destruct (validate_offset _ 2000) as [off|e|] eqn:E3; simpl in H;
    try discriminate.
  destruct (validate_output_filename curr_year output_filename) as [out|e|] eqn:E4;
    simpl in H; try discriminate.
  injection H as <-.
  apply validate_filename_ok in E1. destruct E1 as [-> E1].
  apply validate_server_ok in E2. destruct E2 as [-> E2].
  apply validate_offset_ok in E3. destruct E3 as [-> E3].
  pose proof (validate_output_filename_same _ _ _ E4) as ->.
  unfold validated. simpl. repeat split; try assumption; apply E3.
Qed.

Lemma build_datasets_arcgis curr_year url_ok folder datasets :
  forall acc entries,
    Config.build_datasets (DOWNLOAD_HANDLERS curr_year) url_ok folder datasets acc
    = Ok entries ->
    exists hs,
      entries = acc ++ map arcgis hs
      /\ map ArcgisGeomHandler.output_filename hs
         = map (fun d => Document.output_filename (Document.handler_cfg d)) datasets
      /\ Forall (validated curr_year) hs
      /\ Forall (fun d => Document.download_method d = "arcgis_geom_api") datasets.
Proof.
  induction datasets as [|d ds IH]; intros acc entries H;
    cbn [Config.build_datasets] in H.
  - injection H as <-. exists []. simpl. rewrite app_nil_r. auto.
  - destruct (File_init _ _ _ _ _) as [file|e|]; cbn [bind] in H;
      try discriminate.
    unfold DOWNLOAD_HANDLERS in H. cbn [dict_get] in H.
    destruct (String.eqb "arcgis_geom_api" (Document.download_method d)) eqn:Em;
      cbn [bind] in H; [|discriminate].
    apply String.eqb_eq in Em.
    unfold ArcgisGeomHandler_class in H.
    destruct (ArcgisGeomHandler.init _ _ _ _ _ _ _ _) as [h|e|] eqn:Ei;
      simpl in H; try discriminate.
    apply arcgis_init_ok in Ei. destruct Ei as (_ & Ho & Hv).
    destruct (IH _ _ H) as (hs & -> & Hn & Hvs & Hm).
    exists (h :: hs). simpl. rewrite <- app_assoc. simpl.
    repeat split; auto. now rewrite Ho, Hn.
Qed.

Lemma build_arcgis curr_year url_ok config_file :
  forall acc entries,
    Config.build (DOWNLOAD_HANDLERS curr_year) url_ok config_file acc = Ok entries ->
    exists hs,
      entries = acc ++ map arcgis hs
      /\ map ArcgisGeomHandler.output_filename hs
         = map (fun d => Document.output_filename (Document.handler_cfg d))
             (all_datasets config_file)
      /\ Forall (validated curr_year) hs
      /\ Forall (fun d => Document.download_method d = "arcgis_geom_api")
           (all_datasets config_file).
Proof.
  induction config_file as [|fc doc IH]; intros acc entries H; simpl in H.
  - injection H as <-. exists []. simpl. rewrite app_nil_r. auto.
  - destruct (Config.build_datasets _ _ _ _ _) as [es|e|] eqn:Ed; simpl in H;
      try discriminate.
    apply build_datasets_arcgis in Ed. destruct Ed as (hs1 & -> & Hn1 & Hv1 & Hm1).
    destruct (IH _ _ H) as (hs2 & -> & Hn2 & Hv2 & Hm2).
    exists (hs1 ++ hs2). unfold all_datasets. simpl.
    rewrite !map_app, <- app_assoc, Hn1. fold (all_datasets doc). rewrite Hn2.
    repeat split; auto; apply Forall_app; auto.
Qed.

Lemma find_duplicate_url_arcgis hs : forall urls zip_urls,
  Config.find_duplicate_url_loop (map arcgis hs) urls zip_urls = [].
Proof.
  induction hs as [|h hs IH]; intros urls zip_urls; simpl; [reflexivity | apply IH].
Qed.

Lemma flat_map_filenames_arcgis hs :
  flat_map filenames (map arcgis hs) = map ArcgisGeomHandler.output_filename hs.
Proof. induction hs as [|h hs IH]; simpl; [reflexivity | now rewrite IH]. Qed.

Lemma post_init_arcgis_entries curr_year url_ok config_file cfg ws :
  Config.post_init (DOWNLOAD_HANDLERS curr_year) url_ok config_file = Ok (cfg, ws) ->
  exists hs,
    Config.entries cfg = map arcgis hs
    /\ List.length hs = List.length (all_datasets config_file)
    /\ map ArcgisGeomHandler.output_filename hs
       = map (fun d => Document.output_filename (Document.handler_cfg d))
           (all_datasets config_file)
    /\ Forall (validated curr_year) hs
    /\ Forall (fun d => Document.download_method d = "arcgis_geom_api")
         (all_datasets config_file)
    /\ filter is_url_warning ws = [].
Proof.
  unfold Config.post_init. intros H.
  destruct (Config.build _ _ _ _) as [entries|e|] eqn:Eb; simpl in H;
    try discriminate.
  injection H as <- <-.
  apply build_arcgis in Eb. destruct Eb as (hs & -> & Hn & Hv & Hm).
  exists hs. simpl. repeat split; auto.
  - apply (f_equal (@List.length string)) in Hn. now rewrite !length_map in Hn.
  - rewrite filter_app. unfold Config._find_duplicate_url, Config._find_duplicate_filename.
    now rewrite find_duplicate_url_arcgis, find_duplicate_filename_kind.
Qed.

(** X1. A configuration built with the dispatch table of the repository has
    one [ArcgisGeomHandler] per dataset of the document, in the order of
    declaration, each with the output filename of its dataset and with
    fields that passed the validators (server known, offset within 0 and
    2000); every dataset names the method ["arcgis_geom_api"]; and no
    duplicate-URL warning is raised, whatever URLs the datasets share. *)
Theorem post_init_arcgis curr_year url_ok config_file cfg ws :
  Config.post_init (DOWNLOAD_HANDLERS curr_year) url_ok config_file = Ok (cfg, ws) ->
  exists hs,
    Config.entries cfg = map arcgis hs
    /\ List.length hs = List.length (all_datasets config_file)
    /\ map ArcgisGeomHandler.output_filename hs
       = map (fun d => Document.output_filename (Document.handler_cfg d))
           (all_datasets config_file)
    /\ Forall (validated curr_year) hs
    /\ Forall (fun d => Document.download_method d = "arcgis_geom_api")
         (all_datasets config_file)
    /\ filter is_url_warning ws = [].
Proof.
  exact (post_init_arcgis_entries curr_year url_ok config_file cfg ws).
Qed.

Lemma post_init_arcgis_witness :
  exists cfg ws hs,
    Config.post_init (DOWNLOAD_HANDLERS 2026) (fun _ => true) sample_document
    = Ok (cfg, ws)
    /\ Config.entries cfg = map arcgis hs
    /\ map ArcgisGeomHandler.output_filename hs = ["lad_2020"; "msoa_2021"]
    /\ filter is_url_warning ws = [].
Proof.
  do 2 eexists.
  destruct (post_init_arcgis 2026 (fun _ => true) sample_document _ _ eq_refl)
    as (hs & He & _ & Hn & _ & _ & Hw).
  exists hs. split; [reflexivity|]. auto.
Defined.

(** ** The duplicate-filename pass and the lookup *)

Lemma NoDup_app_disjoint {A : Type} (l1 l2 : list A) x :
  NoDup (l1 ++ l2) -> In x l1 -> In x l2 -> False.
Proof.
  induction l1 as [|a l1 IH]; simpl; intros N H1 H2; [contradiction|].
  inversion N as [|? ? Hn N']; subst. destruct H1 as [-> | H1].
  - apply Hn, in_or_app. now right.
  - now apply IH.
Qed.

Lemma duplicate_filename_inner_none names : forall seen,
  fst (Config.duplicate_filename_inner names seen) = []
  <-> NoDup names /\ (forall x, In x names -> ~ In x seen).
Proof.
  induction names as [|f names IH]; intros seen; simpl.
  - split; [intros _; split; [constructor | intros x []] | reflexivity].
  - destruct (mem f seen) eqn:E.
    + destruct (Config.duplicate_filename_inner names seen) as [ws seen'].
      simpl. split; [discriminate|]. intros [_ H]. exfalso.
      apply (H f (or_introl eq_refl)). now apply mem_In.
    + rewrite IH. apply mem_false in E. split.
      * intros [Hn Hd]. split.
        -- constructor; [|assumption]. intros Hin.
           apply (Hd f Hin). apply in_or_app. right. now left.
        -- intros x [<- | Hx]; [assumption|]. intros Hs.
           apply (Hd x Hx). apply in_or_app. now left.
      * intros [Hn Hd]. inversion Hn as [|? ? Hnf Hn']; subst. split; [assumption|].
        intros x Hx Hs. apply in_app_or in Hs. destruct Hs as [Hs | [<- | []]].
        -- apply (Hd x (or_intror Hx) Hs).
        -- contradiction.
Qed.

Lemma duplicate_filename_inner_seen names : forall seen x,
  In x (snd (Config.duplicate_filename_inner names seen))
  <-> In x seen \/ In x names.
Proof.
  induction names as [|f names IH]; intros seen x; simpl; [tauto|].
  destruct (mem f seen) eqn:E.
  - specialize (IH seen x).
    destruct (Config.duplicate_filename_inner names seen) as [ws seen'].
    simpl in *. rewrite IH. apply mem_In in E. split; [tauto|].
    intros [H | [<- | H]]; auto.
  - rewrite IH, in_app_iff. simpl. tauto.
Qed.

Lemma find_duplicate_filename_none entries : forall seen,
  Config.find_duplicate_filename_loop entries seen = []
  <-> NoDup (flat_map filenames entries)
      /\ (forall x, In x (flat_map filenames entries) -> ~ In x seen).
Proof.
  induction entries as [|e entries IH]; intros seen; simpl.
  - split; [intros _; split; [constructor | intros x []] | reflexivity].
  - pose proof (duplicate_filename_inner_none (filenames e) seen) as Hi.
    pose proof (duplicate_filename_inner_seen (filenames e) seen) as Hs.
    destruct (Config.duplicate_filename_inner (filenames e) seen) as [ws seen'].
    simpl in Hi, Hs. split.
    + intros H. apply app_eq_nil in H. destruct H as [H1 H2].
      apply Hi in H1. apply IH in H2. destruct H1 as [N1 D1], H2 as [N2 D2].
      split.
      * apply NoDup_app; try assumption.
        intros x Hx Hy. apply (D2 x Hy). apply Hs. now right.
      * intros x Hx. apply in_app_or in Hx. destruct Hx as [Hx | Hx].
        -- now apply D1.
        -- intros Hin. apply (D2 x Hx). apply Hs. now left.
    + intros [N D].
      assert (N1 : NoDup (filenames e)) by (eapply NoDup_app_remove_r; exact N).
      assert (N2 : NoDup (flat_map filenames entries))
        by (eapply NoDup_app_remove_l; exact N).
      assert (H1 : ws = []).
      { apply Hi. split; [assumption|]. intros x Hx. apply D, in_or_app. now left. }
      assert (H2 : Config.find_duplicate_filename_loop entries seen' = []).
      { apply IH. split; [assumption|]. intros x Hx Hin. apply Hs in Hin.
        destruct Hin as [Hin | Hin].
        - apply (D x); [apply in_or_app; now right | assumption].
        - exact (NoDup_app_disjoint _ _ x N Hin Hx). }
      now rewrite H1, H2.
Qed.

(** X2. The duplicate-filename pass stays silent exactly when no filename is
    produced twice across the entries, and what it warns about is always a
    filename. *)
Theorem find_duplicate_filename_iff entries :
  (Config._find_duplicate_filename entries = []
   <-> NoDup (flat_map filenames entries))
  /\ Forall (fun wn => exists f, wn = FilenameTwice f
                                /\ In f (flat_map filenames entries))
       (Config._find_duplicate_filename entries).
Proof.
  split.
  - unfold Config._find_duplicate_filename.
    rewrite find_duplicate_filename_none. split; [tauto|].
    intros N. split; [assumption | intros x _ []].
  - unfold Config._find_duplicate_filename. generalize (@nil string).
    induction entries as [|e entries IH]; intros seen; simpl; [constructor|].
    assert (Hi : forall names s,
               Forall (fun wn => exists f, wn = FilenameTwice f /\ In f names)
                 (fst (Config.duplicate_filename_inner names s))).
    { clear. induction names as [|f names IHn]; intros s; simpl; [constructor|].
      destruct (mem f s).
      - specialize (IHn s).
        destruct (Config.duplicate_filename_inner names s) as [ws s'].
        simpl in *. constructor; [exists f; auto|].
        eapply Forall_impl; [|exact IHn]. intros wn (g & -> & Hg). exists g. auto.
      - eapply Forall_impl; [|apply IHn]. intros wn (g & -> & Hg). exists g. auto. }
    specialize (Hi (filenames e) seen).
    destruct (Config.duplicate_filename_inner (filenames e) seen) as [ws seen'].
    simpl in Hi. apply Forall_app. split.
    + eapply Forall_impl; [|exact Hi]. intros wn (g & -> & Hg). exists g.
      split; [reflexivity | apply in_or_app; now left].
    + eapply Forall_impl; [|apply IH]. intros wn (g & -> & Hg). exists g.
      split; [reflexivity | apply in_or_app; now right].
Qed.

(** X3. The lookup returns the first entry, in the order of declaration,
    that produces the filename: no entry before it does; and it raises
    [ValueError] exactly when no entry produces the filename. *)
Theorem find_file_config_first cfg filename :
  (forall h,
      Config.find_file_config cfg filename = Ok h ->
      exists before after,
        Config.entries cfg = before ++ h :: after
        /\ In filename (filenames h)
        /\ Forall (fun e => ~ In filename (filenames e)) before)
  /\ (Config.find_file_config cfg filename = Raise ValueError
      <-> ~ In filename (flat_map filenames (Config.entries cfg))).
Proof.
  unfold Config.find_file_config. generalize (Config.entries cfg).
  intros entries. split.
  - induction entries as [|e entries IH]; intros h; simpl; [discriminate|].
    destruct (mem filename (filenames e)) eqn:E.
    + intros H. injection H as <-. exists [], entries. apply mem_In in E.
      repeat split; auto.
    + intros H. destruct (IH h H) as (before & after & -> & Hin & Hb).
      exists (e :: before), after. repeat split; auto.
      constructor; [now apply mem_false | assumption].
  - induction entries as [|e entries IH]; simpl; [tauto|].
    destruct (mem filename (filenames e)) eqn:E.
    + apply mem_In in E. split; [discriminate|].
      intros H. exfalso. apply H, in_or_app. now left.
    + rewrite IH. apply mem_false in E. rewrite in_app_iff. tauto.
Qed.

Lemma find_file_config_first_witness :
  exists before after,
    map arcgis [lad_2020; lad_2020_again] = before ++ arcgis lad_2020 :: after
    /\ In "lad_2020" (filenames (arcgis lad_2020))
    /\ Forall (fun e => ~ In "lad_2020" (filenames e)) before.
Proof.
  apply (proj1 (find_file_config_first
                  (Downloader.config (sample_downloader [lad_2020; lad_2020_again]))
                  "lad_2020") (arcgis lad_2020)).
  reflexivity.
Defined.

(** ** Reconciliation: what [check] means and what [update] leaves *)

Lemma filter_nil_iff {A : Type} (f : A -> bool) l :
  filter f l = [] <-> forall x, In x l -> f x = false.
Proof.
  induction l as [|a l IH]; simpl; [tauto|].
  destruct (f a) eqn:E.
  - split; [discriminate|]. intros H. rewrite (H a (or_introl eq_refl)) in E.
    discriminate.
  - rewrite IH. split; [intros H x [<- | Hx]; auto | auto].
Qed.

Lemma missing_nil_iff ord self w :
  Downloader.missing ord self w = []
  <-> forall f, In f (Downloader.required_files self) ->
                In f (Downloader.existing_files self w).
Proof.
  split.
  - intros H f Hr.
    destruct (in_dec string_dec f (Downloader.existing_files self w)) as [|N];
      [assumption|].
    assert (Hm : In f (Downloader.missing ord self w)) by (apply missing_spec; auto).
    rewrite H in Hm. contradiction.
  - intros H. destruct (Downloader.missing ord self w) as [|f l] eqn:E;
      [reflexivity|].
    assert (Hm : In f (Downloader.missing ord self w)) by (rewrite E; now left).
    apply missing_spec in Hm. destruct Hm as [Hr Hn]. now apply H in Hr.
Qed.

Lemma old_data_nil_iff self w :
  Downloader.old_data self w = []
  <-> forall f, In f (Downloader.existing_files self w) ->
                In f (Downloader.required_files self).
Proof.
  unfold Downloader.old_data. rewrite filter_nil_iff.
  unfold Downloader.existing_files. split.
  - intros H f Hf. apply In_sorted, in_map_iff in Hf.
    destruct Hf as (p & <- & Hp). specialize (H p Hp).
    apply negb_false_iff in H. now apply mem_In.
  - intros H p Hp. apply negb_false_iff, mem_In, H, In_sorted.
    now apply in_map.
Qed.

(** X4. When [check] is true nothing is missing and nothing is old, so the
    fast path of [update] skips no work; and where neither the required
    names nor the stems of the store repeat a name, the converse holds too:
    nothing missing and nothing old makes [check] true. *)
Theorem check_nothing_to_do ord self w :
  (Downloader.check self w = true ->
   Downloader.missing ord self w = [] /\ Downloader.old_data self w = [])
  /\ (NoDup (flat_map filenames (Config.entries (Downloader.config self))) ->
      NoDup (map path_stem (Downloader.listed self w)) ->
      Downloader.missing ord self w = [] ->
      Downloader.old_data self w = [] ->
      Downloader.check self w = true).
Proof.
  split.
  - intros H. unfold Downloader.check in H. apply list_eqb_eq in H.
    split; [apply missing_nil_iff | apply old_data_nil_iff];
      intros f Hf; congruence.
  - intros N1 N2 Hm Ho. apply check_same_set; try assumption.
    intros f. split;
      [apply (proj1 (missing_nil_iff ord self w) Hm)
      | apply (proj1 (old_data_nil_iff self w) Ho)].
Qed.

Lemma check_nothing_to_do_witness :
  let self := sample_downloader [lad_2020] in
  let w := sample_world ["data/raw/boundaries/lad_2020.parquet"] [] in
  Downloader.check self w = true.
Proof.
  intros self w.
  apply (proj2 (check_nothing_to_do walk_as_listed self w)).
  - vm_compute. repeat constructor. intros [].
  - vm_compute. repeat constructor. intros [].
  - reflexivity.
  - reflexivity.
Defined.







(** ** What the paginated retrieval can end in *)

Section RetrieveOutcomes.

Variables (offset : Z) (url : string) (max_retries : Z).









End RetrieveOutcomes.


(** ** What [execute] and [update] can end in *)











Lemma dict_get_set_other {V : Type} (k k' : string) (v : V) d :
  k <> k' -> dict_get k (dict_set k' v d) = dict_get k d.
Proof.
  intros N. induction d as [|[k0 v0] d IH]; simpl.
  - apply String.eqb_neq in N. rewrite String.eqb_sym in N. now rewrite N.
  - destruct (String.eqb k0 k') eqn:E; simpl.
    + apply String.eqb_eq in E. subst k0.
      apply String.eqb_neq in N. rewrite String.eqb_sym in N. now rewrite N.
    + destruct (String.eqb k0 k); [reflexivity | exact IH].
Qed.

Lemma arcgis_execute_success_outputs h path w fetched w' :
  ArcgisGeomHandler.execute h path w = (Ok (true, fetched), w') ->
  exists gdf, fetched = [(ArcgisGeomHandler.output_filename h, Some (Frame gdf))].
Proof.
  unfold ArcgisGeomHandler.execute.
  destruct (dict_get _ GEOMETRY_SERVERS); [|discriminate].
  destruct (iterative_geo_api_retrieve _ _ _ _ _) as [[[gdf st]|e|] n];
    try discriminate.
  destruct st; [|discriminate]. destruct gdf as [g|]; [|discriminate].
  simpl. intros H. injection H as <- _. eauto.
Qed.

Lemma update_loop_data hs todo : forall self st w self' w',
  Config.entries (Downloader.config self) = map arcgis hs ->
  Downloader.update_loop self todo st w = (Ok true, self', w') ->
  (forall f, In f todo ->
     exists gdf, dict_get f (Downloader.data self') = Some (Some (Frame gdf)))
  /\ (forall k gdf,
        dict_get k (Downloader.data self) = Some (Some (Frame gdf)) ->
        exists gdf', dict_get k (Downloader.data self') = Some (Some (Frame gdf'))).
Proof.
  induction todo as [|f todo IH]; intros self st w self' w' He Hu; simpl in Hu.
  - injection Hu as _ <- _. split; [intros f [] | eauto].
  - unfold Config.find_file_config in Hu.
    destruct (Config.find_file_config_loop _ f) as [e|x|] eqn:El; try discriminate.
    apply find_file_config_In in El. destruct El as [Hin Hfe].
    rewrite He in Hin. apply in_map_iff in Hin. destruct Hin as (h & <- & _).
    simpl in Hfe. destruct Hfe as [Hfe | []].
    cbn [execute arcgis] in Hu.
    destruct (ArcgisGeomHandler.execute h _ _) as [[[status fetched]|x|] w1] eqn:Ex;
      try discriminate.
    destruct status; [|now apply update_loop_false in Hu].
    apply arcgis_execute_success_outputs in Ex. destruct Ex as [g ->].
    cbn [negb fold_left fst snd] in Hu. rewrite Hfe in Hu.
    apply IH in Hu; [|exact He]. destruct Hu as [H1 H2]. simpl in H2.
    assert (Keep : forall k gdf,
               dict_get k (dict_set f (Some (Frame g)) (Downloader.data self))
               = Some (Some (Frame gdf)) ->
               exists gdf', dict_get k (Downloader.data self')
                            = Some (Some (Frame gdf'))) by exact H2.
    split.
    + intros f' [<- | Hf']; [|now apply H1].
      apply (Keep f g). apply dict_get_set.
    + intros k gdf Hk. destruct (string_dec k f) as [-> | N].
      * apply (Keep f g). apply dict_get_set.
      * apply (Keep k gdf). now rewrite dict_get_set_other.
Qed.

(** X8. When [update] finds the store out of date and returns true with
    handlers of this repository, the mapping it fills holds a frame under
    every filename that was missing, and whatever frame it held before under
    another name is still bound. *)
Theorem update_fills_data ord self w hs self' w' :
  Config.entries (Downloader.config self) = map arcgis hs ->
  Downloader.check self w = false ->
  Downloader.update ord self w = (Ok true, self', w') ->
  (forall f, In f (Downloader.missing ord self (disposed self w)) ->
     exists gdf, dict_get f (Downloader.data self') = Some (Some (Frame gdf)))
  /\ (forall k gdf,
        dict_get k (Downloader.data self) = Some (Some (Frame gdf)) ->
        exists gdf', dict_get k (Downloader.data self') = Some (Some (Frame gdf'))).
Proof.
  intros He Hc Hu. unfold Downloader.update in Hu. rewrite Hc in Hu.
  fold (disposed self w) in Hu. exact (update_loop_data hs _ _ _ _ _ _ He Hu).
Qed.

Lemma update_fills_data_witness :
  let self := sample_downloader [lad_2020; msoa_2021] in
  let w := sample_world [] [page ["a"]; page []; page ["b"]] in
  let out := Downloader.update walk_as_listed self w in
  exists gdf,
    dict_get "msoa_2021" (Downloader.data (snd (fst out))) = Some (Some (Frame gdf)).
Proof.
  intros self w out.
  apply (proj1 (update_fills_data walk_as_listed self w [lad_2020; msoa_2021]
                  (snd (fst out)) (snd out) eq_refl eq_refl eq_refl)).
  vm_compute. auto.
Defined.

(** ** The validation utilities *)

Lemma split_length c s : List.length (split c s) = S (count_char c s).
Proof.
  induction s as [|a r IH]; simpl; [reflexivity|].
  destruct (Ascii.eqb a c); simpl; [now rewrite IH|].
  destruct (split c r) as [|h t] eqn:E; [now apply split_nonempty in E|].
  simpl in *. exact IH.
Qed.

Lemma remove_char_length c s :
  String.length (remove_char c s) + count_char c s = String.length s.
Proof.
  induction s as [|a r IH]; simpl; [reflexivity|].
  destruct (Ascii.eqb a c); simpl; lia.
Qed.

Lemma invalid_symbol_count_count s symbol occurences :
  invalid_symbol_count s symbol occurences
  = negb (count_char symbol s =? occurences).
Proof.
  unfold invalid_symbol_count. rewrite split_length. f_equal.
  destruct (Nat.eqb_spec (count_char symbol s) occurences);
    [apply Nat.eqb_eq | apply Nat.eqb_neq]; lia.
Qed.

Lemma string_contains_space_count s :
  string_contains_space s = (0 <? count_char " " s).
Proof.
  unfold string_contains_space.
  pose proof (remove_char_length " " s).
  destruct (Nat.ltb_spec 0 (count_char " " s));
    [apply Nat.ltb_lt | apply Nat.ltb_ge]; lia.
Qed.

(** X9. The two length comparisons of the validation utilities count
    occurrences: [invalid_symbol_count] holds exactly when the symbol occurs
    a number of times other than the expected one, fewer as well as more,
    and [string_contains_space] exactly when a space occurs. *)
Theorem symbol_counts s symbol occurences :
  invalid_symbol_count s symbol occurences
  = negb (count_char symbol s =? occurences)
  /\ string_contains_space s = (0 <? count_char " " s)
  /\ (string_contains_space s = false <-> contains " " s = false).
Proof.
  split; [|split].
  - apply invalid_symbol_count_count.
  - apply string_contains_space_count.
  - unfold string_contains_space.
    pose proof (remove_char_length " " s) as L.
    rewrite Nat.ltb_ge.
    assert (C : contains " " s = false <-> count_char " " s = 0).
    { clear. induction s as [|a r IH]; [simpl; tauto|].
      rewrite contains_char_cons, orb_false_iff, IH. cbn [count_char].
      rewrite (Ascii.eqb_sym " " a).
      destruct (Ascii.eqb a " "); split; try lia; intros [? ?]; auto;
        discriminate. }
    rewrite C. lia.
Qed.

(** X10. The validator of output filenames returns its argument, and it
    accepts a name exactly when the name is not blank, holds no space, has
    exactly one underscore, and every hyphen-separated part after the
    underscore is a valid year; guarded by the count of underscores, the
    indexing in [string_contains_year] never raises. *)
Theorem validate_output_filename_iff curr_year filename :
  (forall r,
      validate_output_filename curr_year filename = Ok r <->
      r = filename
      /\ empty_value filename = false
      /\ count_char " " filename = 0
      /\ count_char "_" filename = 1
      /\ exists label years,
           split "_" filename = [label; years]
           /\ forallb (validate_year curr_year) (split "-" years) = true)
  /\ validate_output_filename curr_year filename <> Raise IndexError
  /\ validate_output_filename curr_year filename <> Diverge.
Proof.
  pose proof (invalid_symbol_count_count filename "_" 1) as Hu.
  pose proof (string_contains_space_count filename) as Hs.
  unfold validate_output_filename, string_contains_year.
  rewrite Hu, Hs.
  pose proof (split_length "_" filename) as Hl.
  destruct (empty_value filename).
  { split; [|split; discriminate]. intros r. split; [discriminate|].
    intros (_ & H & _). discriminate. }
  destruct (Nat.ltb_spec 0 (count_char " " filename)).
  { split; [|split; discriminate]. intros r. split; [discriminate|].
    intros (_ & _ & H' & _). lia. }
  destruct (Nat.eqb_spec (count_char "_" filename) 1) as [E | N]; cbn [negb].
  - rewrite E in Hl.
    destruct (split "_" filename) as [|label [|years [|x t]]] eqn:Es;
      try discriminate. cbn [nth_error bind].
    destruct (forallb (validate_year curr_year) (split "-" years)) eqn:Ey;
      cbn [negb].
    + split; [|split; discriminate]. intros r. split.
      * intros H'. injection H' as <-. repeat split; try lia.
        now exists label, years.
      * intros (-> & _). reflexivity.
    + split; [|split; discriminate]. intros r. split; [discriminate|].
      intros (_ & _ & _ & _ & l & y & Hly & Hy). injection Hly as <- <-.
      congruence.
  - split; [|split; discriminate]. intros r. split; [discriminate|].
    intros (_ & _ & _ & H' & _). contradiction.
Qed.

Lemma validate_output_filename_iff_witness :
  validate_output_filename 2026 "lad_2020" = Ok "lad_2020".
Proof.
  apply (proj1 (validate_output_filename_iff 2026 "lad_2020")).
  repeat split; try reflexivity. exists "lad", "2020". split; reflexivity.
Defined.

(** ** Slugs and data paths *)

Lemma count_char_append c a b :
  count_char c (a ++ b) = count_char c a + count_char c b.
Proof. induction a as [|x a IH]; simpl; [reflexivity | rewrite IH; lia]. Qed.

Lemma lower_char_space c : Ascii.eqb (lower_char c) " " = Ascii.eqb c " ".
Proof. destruct c as [[] [] [] [] [] [] [] []]; vm_compute; reflexivity. Qed.

Lemma lower_char_idempotent c : lower_char (lower_char c) = lower_char c.
Proof. destruct c as [[] [] [] [] [] [] [] []]; vm_compute; reflexivity. Qed.

Lemma lower_idempotent s : lower (lower s) = lower s.
Proof.
  induction s as [|c s IH]; simpl; [reflexivity|].
  now rewrite lower_char_idempotent, IH.
Qed.

Lemma count_space_lower s : count_char " " (lower s) = count_char " " s.
Proof.
  induction s as [|c s IH]; simpl; [reflexivity|].
  now rewrite lower_char_space, IH.
Qed.

Lemma squeeze_spaces_none s : forall prev,
  count_char " " s = 0 -> squeeze_spaces prev s = s.
Proof.
  induction s as [|c s IH]; intros prev; simpl; [reflexivity|].
  destruct (Ascii.eqb c " "); simpl; [lia|]. intros H. now rewrite IH.
Qed.

Lemma replace_char_none c new s :
  count_char c s = 0 -> replace_char c new s = s.
Proof.
  induction s as [|a s IH]; simpl; [reflexivity|].
  destruct (Ascii.eqb a c); simpl; [lia|]. intros H. now rewrite IH.
Qed.

Lemma replace_char_count c new s :
  count_char c new = 0 -> count_char c (replace_char c new s) = 0.
Proof.
  intros Hn. induction s as [|a s IH]; simpl; [reflexivity|].
  destruct (Ascii.eqb a c) eqn:E.
  - rewrite count_char_append, Hn, IH. reflexivity.
  - simpl. rewrite E, IH. reflexivity.
Qed.

Lemma lower_append a b : lower (a ++ b) = (lower a ++ lower b)%string.
Proof. induction a as [|c a IH]; simpl; [reflexivity | now rewrite IH]. Qed.

Lemma lower_replace_space new s :
  lower (replace_char " " new s) = replace_char " " (lower new) (lower s).
Proof.
  induction s as [|a s IH]; simpl; [reflexivity|].
  rewrite lower_char_space. destruct (Ascii.eqb a " ").
  - now rewrite lower_append, IH.
  - simpl. now rewrite IH.
Qed.

(** X11. A slug holds no space as long as the delimiter holds none, and the
    slug made with ["-"] is in lower case; a name without spaces, such as a
    folder that passed [validate_folder], is only put in lower case. *)
Theorem generate_slug_shape name delimiter :
  (count_char " " delimiter = 0 ->
   count_char " " (generate_slug name delimiter) = 0)
  /\ lower (generate_slug name "-") = generate_slug name "-"
  /\ (count_char " " name = 0 -> generate_slug name delimiter = lower name)
  /\ (forall r, validate_folder name = Ok r -> generate_slug r delimiter = lower name).
Proof.
  assert (N : count_char " " name = 0 -> generate_slug name delimiter = lower name).
  { intros H. unfold generate_slug. rewrite squeeze_spaces_none by assumption.
    apply replace_char_none. now rewrite count_space_lower. }
  split; [|split; [|split]].
  - intros H. unfold generate_slug. now apply replace_char_count.
  - unfold generate_slug. rewrite lower_replace_space, lower_idempotent.
    reflexivity.
  - exact N.
  - intros r H. apply validate_folder_ok in H. destruct H as (-> & _ & H).
    apply N. pose proof (string_contains_space_count name) as Hs.
    rewrite Hs in H. apply Nat.ltb_ge in H. lia.
Qed.

Lemma generate_slug_shape_witness :
  generate_slug "boundaries" "-" = lower "boundaries".
Proof.
  apply (proj2 (proj2 (proj2 (generate_slug_shape "boundaries" "-")))).
  reflexivity.
Defined.







(** ** Years of a range *)

Lemma py_range_In lo hi y : In y (py_range lo hi) <-> (lo <= y < hi)%Z.
Proof.
  unfold py_range. rewrite in_map_iff. split.
  - intros (k & <- & Hk). apply in_seq in Hk. lia.
  - intros H. exists (Z.to_nat (y - lo)). split; [lia|]. apply in_seq. lia.
Qed.

(** X14. For the year part of a filename that passed validation (every
    hyphen-separated part a valid year), [calc_years_in_range] returns, and
    each year it returns lies between 1990 and the current year. In general
    a range [lo-hi] yields exactly the years from [lo] to [hi], none when
    [hi < lo]; and a string that starts with a hyphen raises [ValueError],
    its first part being empty. *)
Theorem calc_years_in_range_valid curr_year year :
  (forallb (validate_year curr_year) (split "-" year) = true ->
   exists ys,
     calc_years_in_range year = Ok ys
     /\ forall y, In y ys -> (1990 <= y <= curr_year)%Z)
  /\ (forall a b rest lo hi,
        split "-" year = a :: b :: rest ->
        py_int a = Some lo -> py_int b = Some hi ->
        exists ys,
          calc_years_in_range year = Ok ys
          /\ (forall y, In y ys <-> (lo <= y <= hi)%Z)
          /\ ((hi < lo)%Z -> ys = []))
  /\ (forall r, calc_years_in_range (String "-" r) = Raise ValueError).
Proof.
  split; [|split].
  - unfold calc_years_in_range, validate_year.
    destruct (split "-" year) as [|a [|b rest]] eqn:Es; simpl;
      [now apply split_nonempty in Es| |].
    + destruct (py_int a) as [n|]; [|discriminate].
      rewrite andb_true_r. intros H. apply andb_true_iff in H.
      exists [n]. split; [reflexivity|]. intros y [<- | []]. lia.
    + destruct (py_int a) as [lo|]; [|discriminate].
      destruct (py_int b) as [hi|]; [|simpl; rewrite andb_false_r; discriminate].
      intros H. apply andb_true_iff in H. destruct H as [Ha H].
      apply andb_true_iff in H. destruct H as [Hb _].
      apply andb_true_iff in Ha, Hb.
      eexists. split; [reflexivity|]. intros y Hy. apply py_range_In in Hy. lia.
  - intros a b rest lo hi Hs Ha Hb. unfold calc_years_in_range.
    rewrite Hs, Ha, Hb. eexists. split; [reflexivity|]. split.
    + intros y. rewrite py_range_In. lia.
    + intros H. unfold py_range. now replace (Z.to_nat (hi + 1 - lo)) with 0 by lia.
  - intros r. unfold calc_years_in_range. simpl.
    destruct (split "-" r); reflexivity.
Qed.

Lemma calc_years_in_range_valid_witness :
  exists ys,
    calc_years_in_range "2019-2021" = Ok ys
    /\ forall y, In y ys -> (1990 <= y <= 2026)%Z.
Proof.
  apply (proj1 (calc_years_in_range_valid 2026 "2019-2021")). reflexivity.
Defined.

(** ** Validation of the content of a response *)

Lemma dict_get_value {V : Type} k (v : V) d :
  dict_get k d = Some v -> In v (map snd d).
Proof.
  induction d as [|[k0 v0] d IH]; simpl; [discriminate|].
  destruct (String.eqb k0 k); [intros H; injection H as ->; now left | auto].
Qed.

(** X15. [validate_file] accepts every response without a content type, or
    with one whose extension cannot be guessed. When the extension is
    guessed, the response is accepted exactly when the table maps that
    extension to the expected one in lower case; so an expected extension
    other than json, csv, xlsx, ods, xls, html and zip, ["geojson"] and
    ["parquet"] among them, is then always refused. The case of the
    expected extension does not matter. *)
Theorem validate_file_table mimetype_of guess_extension ext :
  validate_file mimetype_of guess_extension ext None = true
  /\ validate_file mimetype_of guess_extension ext (Some EmptyString) = true
  /\ (forall content_type,
        guess_extension (mimetype_of content_type) = None
        \/ guess_extension (mimetype_of content_type) = Some EmptyString ->
        validate_file mimetype_of guess_extension ext (Some content_type) = true)
  /\ (forall content_type c e,
        content_type <> EmptyString ->
        guess_extension (mimetype_of content_type) = Some (String c e) ->
        (validate_file mimetype_of guess_extension ext (Some content_type) = true
         <-> dict_get (lstrip_dots (String c e)) FILE_TYPE_HANDLER = Some (lower ext))
        /\ (validate_file mimetype_of guess_extension ext (Some content_type) = true ->
            In (lower ext) ["json"; "csv"; "xlsx"; "ods"; "xls"; "html"; "zip"]))
  /\ (forall header,
        validate_file mimetype_of guess_extension (lower ext) header
        = validate_file mimetype_of guess_extension ext header).
Proof.
  split; [reflexivity|]. split; [reflexivity|]. split; [|split].
  - intros ct H. unfold validate_file.
    destruct (String.eqb ct EmptyString); [reflexivity|].
    destruct H as [-> | ->]; reflexivity.
  - intros ct c e Hct Hg.
    assert (E : validate_file mimetype_of guess_extension ext (Some ct) = true
                <-> dict_get (lstrip_dots (String c e)) FILE_TYPE_HANDLER
                    = Some (lower ext)).
    { unfold validate_file. apply String.eqb_neq in Hct. rewrite Hct, Hg.
      destruct (dict_get (lstrip_dots (String c e)) FILE_TYPE_HANDLER) as [ft|];
        [|split; discriminate].
      destruct (String.eqb_spec ft (lower ext)) as [-> | N]; simpl.
      - tauto.
      - split; [discriminate|]. intros H. injection H as H. contradiction. }
    split; [exact E|]. intros H. apply E in H. apply dict_get_value in H.
    simpl in H. simpl. tauto.
  - intros header. unfold validate_file. now rewrite lower_idempotent.
Qed.

Lemma validate_file_table_witness :
  validate_file (fun ct => ct)
    (fun m => if String.eqb m "application/json" then Some ".json" else None)
    "JSON" (Some "application/json") = true.
Proof.
  apply (proj2 (proj1 (proj1 (proj2 (proj2 (proj2
           (validate_file_table (fun ct => ct)
              (fun m => if String.eqb m "application/json" then Some ".json" else None)
              "JSON"))))
           "application/json" "."%char "json" ltac:(discriminate) eq_refl))).
  reflexivity.
Defined.

(** ** Memory per worker *)

(** X16. With at least one worker, the memory given to each, times the
    number of workers, does not exceed what is left of the total after the
    safety margin, and falls short of it by less than one byte per worker.
    With neither a limit nor a margin the margin is the smaller of 500 MiB
    and half the total, so the workers never get more than the total.
    With no worker the division fails. *)
Theorem compute_memory_per_worker_bound total_available n_workers margin limit :
  let total_bytes := match limit with Some l => l | None => total_available end in
  let kept_back :=
    match margin, limit with
    | Some m, _ => m
    | None, Some _ => 0%Z
    | None, None => Z.min (500 * (1024 * 1024)) (total_available / 2)
    end in
  ((0 < n_workers)%Z ->
   exists each,
     compute_memory_per_worker total_available n_workers margin limit = Some each
     /\ (n_workers * each <= total_bytes - kept_back < n_workers * each + n_workers)%Z
     /\ (margin = None -> limit = None -> (0 <= total_available)%Z ->
         (0 <= each /\ n_workers * each <= total_available)%Z))
  /\ compute_memory_per_worker total_available 0 margin limit = None.
Proof.
  intros total_bytes kept_back. split.
  - intros Hn. unfold compute_memory_per_worker.
    assert (E : (let '(t, m) :=
                   match limit, margin with
                   | None, None =>
                       (total_available,
                        Z.min (500 * (1024 * 1024)) (total_available / 2))
                   | None, Some m => (total_available, m)
                   | Some l, None => (l, 0%Z)
                   | Some l, Some m => (l, m)
                   end in (t, m)) = (total_bytes, kept_back))
      by (subst total_bytes kept_back; destruct limit, margin; reflexivity).
    destruct (match limit, margin with
              | None, None => _ | None, Some m => _
              | Some l, None => _ | Some l, Some m => _ end) as [t m].
    injection E as -> ->.
    replace (n_workers =? 0)%Z with false by (symmetry; apply Z.eqb_neq; lia).
    eexists. split; [reflexivity|].
    pose proof (Z.div_mod (total_bytes - kept_back) n_workers ltac:(lia)) as D.
    pose proof (Z.mod_pos_bound (total_bytes - kept_back) n_workers Hn) as B.
    split; [lia|].
    intros -> -> Ht. subst total_bytes kept_back.
    pose proof (Z.div_mod total_available 2 ltac:(lia)) as D2.
    pose proof (Z.mod_pos_bound total_available 2 ltac:(lia)) as B2.
    assert (0 <= total_available - Z.min (500 * (1024 * 1024)) (total_available / 2))%Z
      by lia.
    split; [apply Z.div_pos; lia | lia].
  - unfold compute_memory_per_worker.
    destruct limit, margin; reflexivity.
Qed.

Lemma compute_memory_per_worker_bound_witness :
  exists each,
    compute_memory_per_worker 8000000000 4 (Some 1000000000%Z) None = Some each
    /\ (4 * each <= 8000000000 - 1000000000 < 4 * each + 4)%Z.
Proof.
  destruct (proj1 (compute_memory_per_worker_bound 8000000000 4
                     (Some 1000000000%Z) None) ltac:(lia))
    as (each & H1 & H2 & _).
  exists each. split; assumption.
Defined.

(** ** Deleting and archiving *)











(** ** The entry point *)



